(** * Ansible log chunking: metadata extraction and level tables

    A shallow embedding of the Python sources [chunking_lang.py],
    [chonkie_chunking.py] and [main.py].

    Python values are modelled as follows.
    - A [str] is a [string]; a character is an [ascii], read as the code
      point of the same number (texts whose code points are below 256).
    - [re] patterns are terms of type [regex], run by a backtracking
      matcher with Python's priorities (leftmost alternative first, greedy
      or lazy repetition).
    - A [dict] with a fixed set of keys is a record; a [dict] used as a map
      is an association list in insertion order; a [set] is a [gset].
    - A function that can raise returns a [result]; [int] raises on a
      numeral longer than the limit of the interpreter, which is a
      parameter of the extractors. *)

From Stdlib Require Import Ascii String NArith ZArith Bool Lia.
From stdpp Require Import base option list strings gmap.

Local Open Scope string_scope.
Local Open Scope list_scope.

(** ** Exceptions *)

Inductive exn : Type :=
| ValueError
| TypeError.

Inductive result (A : Type) : Type :=
| Ok (a : A)
| Raise (e : exn).

Arguments Ok {A} a.
Arguments Raise {A} e.

#[global] Instance result_ret : MRet result := fun A a => Ok a.

#[global] Instance result_bind : MBind result := fun A B f m =>
  match m with
  | Ok a => f a
  | Raise e => Raise e
  end.

(** [for_each f l]: run [f] on the elements of [l] from left to right and
    stop at the first exception, as a [for] loop that appends each outcome
    to a list does. *)
Fixpoint for_each {A B : Type} (f : A -> result B) (l : list A) : result (list B) :=
  match l with
  | [] => Ok []
  | x :: l' => y ← f x; ys ← for_each f l'; Ok (y :: ys)
  end.

(** ** Python strings *)

Module PyStr.

Definition chars (s : string) : list ascii := list_ascii_of_string s.
Definition str (l : list ascii) : string := string_of_list_ascii l.

Definition code (c : ascii) : N := N_of_ascii c.

Definition in_range (lo hi : N) (c : ascii) : bool :=
  ((lo <=? code c) && (code c <=? hi))%N.

Definition NL : ascii := ascii_of_N 10.
Definition nl : string := String NL EmptyString.

(** [\d]: the decimal digits; below 256 these are '0'..'9'. *)
Definition is_digit (c : ascii) : bool := in_range 48 57 c.

(** [\s] and [str.isspace]: the white space below 256. *)
Definition is_space (c : ascii) : bool :=
  in_range 9 13 c || in_range 28 32 c || (code c =? 133)%N || (code c =? 160)%N.

Definition is_ascii_alpha (c : ascii) : bool :=
  in_range 65 90 c || in_range 97 122 c.

(** [\w]: alphanumeric characters and the underscore, below 256. *)
Definition is_word (c : ascii) : bool :=
  is_digit c || is_ascii_alpha c || (code c =? 95)%N
  || (code c =? 170)%N || (code c =? 178)%N || (code c =? 179)%N
  || (code c =? 181)%N || (code c =? 185)%N || (code c =? 186)%N
  || in_range 188 190 c || in_range 192 214 c || in_range 216 246 c
  || in_range 248 255 c.

(** Lower case of an ASCII letter; other characters are unchanged. *)
Definition lower (c : ascii) : ascii :=
  if in_range 65 90 c then ascii_of_N (code c + 32) else c.

Definition ascii_eqb (a b : ascii) : bool := (code a =? code b)%N.

Fixpoint prefix_of (p s : list ascii) : bool :=
  match p, s with
  | [], _ => true
  | _ :: _, [] => false
  | a :: p', b :: s' => ascii_eqb a b && prefix_of p' s'
  end.

(** [sub in text] *)
Fixpoint contains_chars (sub text : list ascii) : bool :=
  prefix_of sub text ||
  match text with
  | [] => false
  | _ :: text' => contains_chars sub text'
  end.

Definition contains (sub text : string) : bool :=
  contains_chars (chars sub) (chars text).

(** [text.split(sep)] for a non-empty [sep]: cut at the occurrences of
    [sep] found from left to right, not overlapping. [skip] counts the
    characters of an occurrence still to be dropped. *)
Fixpoint split_go (sep : list ascii) (skip : nat) (acc : list ascii)
    (s : list ascii) : list (list ascii) :=
  match s with
  | [] => [rev acc]
  | c :: s' =>
      match skip with
      | S k => split_go sep k acc s'
      | O =>
          if prefix_of sep s
          then rev acc :: split_go sep (length sep - 1) [] s'
          else split_go sep 0 (c :: acc) s'
      end
  end.

Definition split (sep text : string) : list string :=
  map str (split_go (chars sep) 0 [] (chars text)).

(** [text.strip()] *)
Fixpoint lstrip_chars (l : list ascii) : list ascii :=
  match l with
  | c :: l' => if is_space c then lstrip_chars l' else l
  | [] => []
  end.

Definition strip (s : string) : string :=
  str (rev (lstrip_chars (rev (lstrip_chars (chars s))))).

(** Value of a string of decimal digits. *)
Definition digit_val (c : ascii) : Z := Z.of_N (code c - 48).

Definition digits_val (l : list ascii) : Z :=
  fold_left (fun acc c => (10 * acc + digit_val c)%Z) l 0%Z.

(** The interpreter refuses to convert a numeral of more digits than
    [sys.get_int_max_str_digits()], which is 4300 unless it is changed;
    0 stands for no limit, as in the interpreters before this limit. *)
Definition too_long (max_str_digits : nat) (l : list ascii) : bool :=
  negb (Nat.eqb max_str_digits 0) && Nat.ltb max_str_digits (length l).

(** [int(s)] on the strings the extractors pass to it, which are read by
    [\d+]: a non-empty string of decimal digits has its value, unless it
    is too long. The other strings that Python's [int] accepts (signs,
    spaces, underscores) do not arise, and are rejected here. *)
Definition int (max_str_digits : nat) (s : string) : result Z :=
  match chars s with
  | [] => Raise ValueError
  | l =>
      if forallb is_digit l && negb (too_long max_str_digits l)
      then Ok (digits_val l)
      else Raise ValueError
  end.

(** [int(x)] where [x] may be [None]. *)
Definition int_opt (max_str_digits : nat) (x : option string) : result Z :=
  match x with
  | Some s => int max_str_digits s
  | None => Raise TypeError
  end.

(** A [float] read from a decimal numeral: [float_digits] with the
    point [float_scale] places from the right. The value is kept exact;
    the rounding to a double is not modelled. *)
Record pyfloat : Type := { float_digits : Z; float_scale : nat }.

Definition float_ltb (a b : pyfloat) : bool :=
  (float_digits a * 10 ^ Z.of_nat (float_scale b)
   <? float_digits b * 10 ^ Z.of_nat (float_scale a))%Z.

(** The digits before the first point, and what follows that point. *)
Fixpoint cut_at_point (l : list ascii) : list ascii * option (list ascii) :=
  match l with
  | [] => ([], None)
  | c :: l' =>
      if ascii_eqb c "."%char then ([], Some l')
      else let '(ip, fp) := cut_at_point l' in (c :: ip, fp)
  end.

(** [float(s)] on the strings the extractor passes to it, which hold
    digits and points only: such a string is a numeral when it has at
    most one point and at least one digit. *)
Definition float (s : string) : result pyfloat :=
  let '(ip, rest) := cut_at_point (chars s) in
  let fp := default [] rest in
  if forallb is_digit ip && forallb is_digit fp
     && negb (Nat.eqb (length ip + length fp) 0)
  then Ok {| float_digits := digits_val (ip ++ fp); float_scale := length fp |}
  else Raise ValueError.

End PyStr.

(** ** Python's [re] module *)

Module PyRe.
Import PyStr.

(** The regular expressions of the sources. [Star true r] is [r*] and
    [Star false r] is [r*?]; [Group i r] is the [i]-th capturing group;
    [Bol] is [^]. *)
Inductive regex : Type :=
| Eps
| Chr (c : ascii)
| Cls (p : ascii -> bool)
| Dot
| Bol
| Cat (r1 r2 : regex)
| Alt (r1 r2 : regex)
| Star (greedy : bool) (r : regex)
| Group (i : nat) (r : regex).

(** [r+] and [r+?] *)
Definition plus (greedy : bool) (r : regex) : regex := Cat r (Star greedy r).

(** [r{n}] *)
Fixpoint times (n : nat) (r : regex) : regex :=
  match n with
  | O => Eps
  | S n' => Cat r (times n' r)
  end.

(** A literal text. *)
Fixpoint lit_chars (l : list ascii) : regex :=
  match l with
  | [] => Eps
  | c :: l' => Cat (Chr c) (lit_chars l')
  end.

Definition lit (s : string) : regex := lit_chars (chars s).

Fixpoint alts (rs : list regex) : regex :=
  match rs with
  | [] => Eps
  | [r] => r
  | r :: rs' => Alt r (alts rs')
  end.

Fixpoint cats (rs : list regex) : regex :=
  match rs with
  | [] => Eps
  | r :: rs' => Cat r (cats rs')
  end.

(** [re.IGNORECASE] (the inline [(?i)]) and [re.MULTILINE]. *)
Record flags : Type := { ignorecase : bool; multiline : bool }.

Definition no_flags : flags := {| ignorecase := false; multiline := false |}.
Definition IGNORECASE : flags := {| ignorecase := true; multiline := false |}.
Definition MULTILINE : flags := {| ignorecase := false; multiline := true |}.

(** A compiled pattern: its flags and its expression. *)
Record pattern : Type := { pat_flags : flags; pat_re : regex }.

(** The matcher's position in the text: the characters before it, last
    one first, the characters after it, and the groups closed so far,
    last one first. *)
Record mstate : Type := {
  m_before : list ascii;
  m_after : list ascii;
  m_caps : list (nat * list ascii)
}.

Definition m_pos (s : mstate) : nat := length (m_before s).

(** A literal character [c] of a pattern against the character [x] of the
    text. With [IGNORECASE] the letters compare by their lower case; the
    classes of the patterns ([\w], [\d], [.]) hold both cases of a letter
    or none, and are the same with the flag and without. *)
Definition chr_eq (fl : flags) (c x : ascii) : bool :=
  if ignorecase fl then ascii_eqb (lower c) (lower x) else ascii_eqb c x.

(** [^]: the start of the text and, with [MULTILINE], the place after a
    newline. *)
Definition at_bol (fl : flags) (s : mstate) : bool :=
  match m_before s with
  | [] => true
  | c :: _ => multiline fl && ascii_eqb c NL
  end.

(** The state after reading [x], with [xs] left to read. *)
Definition advance (x : ascii) (xs : list ascii) (s : mstate) : mstate :=
  {| m_before := x :: m_before s; m_after := xs; m_caps := m_caps s |}.

(** Consume one character that satisfies [p]. *)
Definition eat (p : ascii -> bool) (s : mstate) (k : mstate -> option mstate)
    : option mstate :=
  match m_after s with
  | x :: xs => if p x then k (advance x xs s) else None
  | [] => None
  end.

(** The characters read between the states [s] and [s']. *)
Definition consumed (s s' : mstate) : list ascii :=
  rev (take (m_pos s' - m_pos s) (m_before s')).

Definition set_cap (i : nat) (w : list ascii) (s : mstate) : mstate :=
  {| m_before := m_before s; m_after := m_after s; m_caps := (i, w) :: m_caps s |}.

(** [a] if it succeeds, else [b]; the second alternative is tried only
    when the first one fails. *)
Notation "a 'orelse' b" :=
  (match a with Some m => Some m | None => b end)
  (at level 70, no associativity, only parsing).

(** A repetition of [body], followed by [k]: a greedy one tries another
    round first, a lazy one tries [k] first. It goes round again only
    after a round that read something, so [n], the number of characters
    left plus one, bounds the rounds. *)
Fixpoint star_loop (body : mstate -> (mstate -> option mstate) -> option mstate)
    (greedy : bool) (k : mstate -> option mstate) (n : nat) (s0 : mstate)
    : option mstate :=
  match n with
  | O => k s0
  | S n' =>
      let next s1 :=
        if Nat.ltb (m_pos s0) (m_pos s1)
        then star_loop body greedy k n' s1 else None in
      if greedy then body s0 next orelse k s0 else k s0 orelse body s0 next
  end.

(** Backtracking matcher in continuation-passing style: [rmatch fl r s k]
    is the first way, in Python's order of preference, of matching [r] at
    [s] so that the continuation [k] succeeds afterwards. *)
Fixpoint rmatch (fl : flags) (r : regex) (s : mstate)
    (k : mstate -> option mstate) {struct r} : option mstate :=
  match r with
  | Eps => k s
  | Chr c => eat (chr_eq fl c) s k
  | Cls p => eat p s k
  | Dot => eat (fun x => negb (ascii_eqb x NL)) s k
  | Bol => if at_bol fl s then k s else None
  | Cat r1 r2 => rmatch fl r1 s (fun s1 => rmatch fl r2 s1 k)
  | Alt r1 r2 => rmatch fl r1 s k orelse rmatch fl r2 s k
  | Star greedy r1 =>
      star_loop (rmatch fl r1) greedy k (S (length (m_after s))) s
  | Group i r1 =>
      rmatch fl r1 s (fun s1 => k (set_cap i (consumed s s1) s1))
  end.

(** A match object. *)
Record rematch : Type := {
  m_start : nat;
  m_end : nat;
  m_text : string;
  m_groups : list (nat * list ascii)
}.

Fixpoint assoc (i : nat) (l : list (nat * list ascii)) : option (list ascii) :=
  match l with
  | [] => None
  | (j, w) :: l' => if Nat.eqb i j then Some w else assoc i l'
  end.

(** [m.group(i)] for [i >= 1]: [None] when the group took no part. *)
Definition group (i : nat) (m : rematch) : option string :=
  str <$> assoc i (m_groups m).

(** [m.group(0)] *)
Definition group0 (m : rematch) : string := m_text m.

Definition match_at (p : pattern) (before after : list ascii) : option rematch :=
  let s := {| m_before := before; m_after := after; m_caps := [] |} in
  match rmatch (pat_flags p) (pat_re p) s Some with
  | Some e =>
      Some {| m_start := m_pos s; m_end := m_pos e;
              m_text := str (consumed s e); m_groups := m_caps e |}
  | None => None
  end.

(** The leftmost match that starts at or after the current position. *)
Fixpoint scan (p : pattern) (before after : list ascii) : option rematch :=
  match match_at p before after with
  | Some m => Some m
  | None =>
      match after with
      | [] => None
      | c :: after' => scan p (c :: before) after'
      end
  end.

(** [re.search(p, text)] *)
Definition search (p : pattern) (text : string) : option rematch :=
  scan p [] (chars text).

(** [re.finditer]: the matches from left to right, each search starting
    where the previous match ended. No pattern of the sources matches the
    empty text; after such a match the search would move one character
    on. [fuel] bounds the number of matches by the length of the text plus
    one. *)
Fixpoint finditer_go (fuel : nat) (p : pattern) (before after : list ascii)
    : list rematch :=
  match fuel with
  | O => []
  | S fuel' =>
      match scan p before after with
      | None => []
      | Some m =>
          let n := m_end m - length before in
          let k := if Nat.eqb (m_end m) (m_start m) then S n else n in
          if Nat.ltb (length after) k then [m]
          else m :: finditer_go fuel' p (rev (take k after) ++ before) (drop k after)
      end
  end.

Definition finditer (p : pattern) (text : string) : list rematch :=
  finditer_go (S (String.length text)) p [] (chars text).

(** [re.findall] for a pattern without group: the texts matched. *)
Definition findall0 (p : pattern) (text : string) : list string :=
  map group0 (finditer p text).

(** [re.findall] for a pattern with one group: the texts of the group,
    empty where it took no part. *)
Definition findall1 (p : pattern) (text : string) : list string :=
  map (fun m => default "" (group 1 m)) (finditer p text).

(** [re.findall] for a pattern with [n >= 2] groups: the tuples of the
    groups' texts. *)
Definition findalln (n : nat) (p : pattern) (text : string) : list (list string) :=
  map (fun m => map (fun i => default "" (group i m)) (seq 1 n)) (finditer p text).

End PyRe.

(** ** The patterns of the metadata extractors

    Each definition is the pattern quoted above it, as it is written in
    [chunking_lang.py] and [chonkie_chunking.py]. *)

Module Patterns.
Import PyStr PyRe.

Local Open Scope char_scope.

Definition pat (fl : flags) (rs : list regex) : pattern :=
  {| pat_flags := fl; pat_re := cats rs |}.

Definition digit : regex := Cls is_digit.
Definition space : regex := Cls is_space.
Definition alpha : regex := Cls is_ascii_alpha.

(** [[\w\.\-]] *)
Definition host_char (c : ascii) : bool :=
  is_word c || ascii_eqb c "." || ascii_eqb c "-".

(** [[\d\.]] *)
Definition digit_or_dot (c : ascii) : bool := is_digit c || ascii_eqb c ".".

(** [[^-]] *)
Definition not_dash (c : ascii) : bool := negb (ascii_eqb c "-").

(** [r'PLAY \[(.*?)\]'] *)
Definition play_name : pattern :=
  pat no_flags [lit "PLAY ["; Group 1 (Star false Dot); Chr "]"].

(** [r'TASK \[(.*?)\]'] *)
Definition task_name_pat : pattern :=
  pat no_flags [lit "TASK ["; Group 1 (Star false Dot); Chr "]"].

(** [r'(?i)(?:ok|changed|failed|skipping|unreachable|fatal): \[([\w\.\-]+)\]'] *)
Definition host_status : pattern :=
  pat IGNORECASE
    [alts [lit "ok"; lit "changed"; lit "failed"; lit "skipping";
           lit "unreachable"; lit "fatal"];
     lit ": ["; Group 1 (plus true (Cls host_char)); Chr "]"].

(** [r'(?i)FAILED - RETRYING: \[([\w\.\-]+)\]'] *)
Definition host_retrying : pattern :=
  pat IGNORECASE
    [lit "FAILED - RETRYING: ["; Group 1 (plus true (Cls host_char)); Chr "]"].

(** [r'(?i)UNREACHABLE! \[([\w\.\-]+)\]'] *)
Definition host_unreachable : pattern :=
  pat IGNORECASE
    [lit "UNREACHABLE! ["; Group 1 (plus true (Cls host_char)); Chr "]"].

Definition host_patterns : list pattern :=
  [host_status; host_retrying; host_unreachable].

(** [r'(?i)FAILED!'] *)
Definition failed_bang : pattern := pat IGNORECASE [lit "FAILED!"].
(** [r'(?i)UNREACHABLE!'] *)
Definition unreachable_bang : pattern := pat IGNORECASE [lit "UNREACHABLE!"].
(** [r'(?i)FAILED - RETRYING'] *)
Definition failed_retrying : pattern := pat IGNORECASE [lit "FAILED - RETRYING"].
(** [r'(?i)changed:'] *)
Definition changed_colon : pattern := pat IGNORECASE [lit "changed:"].
(** [r'(?i)ok:'] *)
Definition ok_colon : pattern := pat IGNORECASE [lit "ok:"].
(** [r'(?i)skipping:'] *)
Definition skipping_colon : pattern := pat IGNORECASE [lit "skipping:"].
(** [r'(?i)included:'] *)
Definition included_colon : pattern := pat IGNORECASE [lit "included:"].

(** [r'(?i)FAILED - RETRYING:.*\((\d+) retries left\)'] *)
Definition retries_left : pattern :=
  pat IGNORECASE
    [lit "FAILED - RETRYING:"; Star true Dot; Chr "(";
     Group 1 (plus true digit); lit " retries left)"].

(** [\d{2}:\d{2}:\d{2}] *)
Definition hms : regex :=
  cats [times 2 digit; Chr ":"; times 2 digit; Chr ":"; times 2 digit].

(** [\d{4}-\d{2}-\d{2}] *)
Definition ymd : regex :=
  cats [times 4 digit; Chr "-"; times 2 digit; Chr "-"; times 2 digit].

(** [r'([A-Za-z]+ \d+ [A-Za-z]+ \d{4}\s+\d{2}:\d{2}:\d{2})'] *)
Definition timestamp_long : pattern :=
  pat no_flags
    [Group 1 (cats [plus true alpha; Chr " "; plus true digit; Chr " ";
                    plus true alpha; Chr " "; times 4 digit;
                    plus true space; hms])].

(** [r'(\d{4}-\d{2}-\d{2} \d{2}:\d{2}:\d{2})'] *)
Definition timestamp_iso_space : pattern :=
  pat no_flags [Group 1 (cats [ymd; Chr " "; hms])].

(** [r'(\d{4}-\d{2}-\d{2}T\d{2}:\d{2}:\d{2})'] *)
Definition timestamp_iso_T : pattern :=
  pat no_flags [Group 1 (cats [ymd; Chr "T"; hms])].

Definition timestamp_patterns : list pattern :=
  [timestamp_long; timestamp_iso_space; timestamp_iso_T].

(** [r'\((\d+:\d{2}:\d{2}\.\d+)\)'] *)
Definition duration_pat : pattern :=
  pat no_flags
    [Chr "(";
     Group 1 (cats [plus true digit; Chr ":"; times 2 digit; Chr ":";
                    times 2 digit; Chr "."; plus true digit]);
     Chr ")"].

(** [r'PLAY RECAP \*+'], with [re.MULTILINE] *)
Definition play_recap : pattern :=
  pat MULTILINE [lit "PLAY RECAP "; plus true (Chr "*")].

(** [\s+name=(\d+)] *)
Definition counter (name : string) (i : nat) : regex :=
  cats [plus true space; lit name; Chr "="; Group i (plus true digit)].

(** [r'^([\w\.\-]+)\s*:\s*ok=(\d+)\s+changed=(\d+)\s+unreachable=(\d+)\s+failed=(\d+)\s+skipped=(\d+)\s+rescued=(\d+)\s+ignored=(\d+)'],
    with [re.MULTILINE] *)
Definition host_stat_pattern : pattern :=
  pat MULTILINE
    [Bol; Group 1 (plus true (Cls host_char)); Star true space; Chr ":";
     Star true space; lit "ok="; Group 2 (plus true digit);
     counter "changed" 3; counter "unreachable" 4; counter "failed" 5;
     counter "skipped" 6; counter "rescued" 7; counter "ignored" 8].

(** [r'^([^-]+?)\s*-+\s*([\d\.]+)s'], with [re.MULTILINE] *)
Definition timing_pattern : pattern :=
  pat MULTILINE
    [Bol; Group 1 (plus false (Cls not_dash)); Star true space;
     plus true (Chr "-"); Star true space;
     Group 2 (plus true (Cls digit_or_dot)); Chr "s"].

(** *** Pieces that the two extractors share *)

(** [re.search(p, chunk)] used as a condition. *)
Definition found (p : pattern) (chunk : string) : bool :=
  bool_decide (is_Some (search p chunk)).

(** [m.group(1)] of the first match, [None] without a match. *)
Definition search_group1 (p : pattern) (chunk : string) : option string :=
  m ← search p chunk; group 1 m.

(** The [for pattern in host_patterns] loop. *)
Definition host_matches (chunk : string) : list string :=
  concat (map (fun p => findall1 p chunk) host_patterns).

(** [list(set(host_matches))]; the order of a set's elements is not
    fixed by Python, and is here the one of [elements]. *)
Definition list_of_set (matches : list string) : list string :=
  elements (list_to_set matches : gset string).

(** [enumerate(chunks)] counted from [start]. *)
Fixpoint enumerate_from {A : Type} (start : nat) (l : list A) : list (nat * A) :=
  match l with
  | [] => []
  | x :: l' => (start, x) :: enumerate_from (S start) l'
  end.

End Patterns.

(** ** Keyword arguments and the calls into the chunking libraries

    The splitter classes of the sources only prepare the arguments of a
    library constructor ([RecursiveCharacterTextSplitter] of langchain,
    [RecursiveChunker] of chonkie). The embedding records the arguments of
    that call; what the library does with them is not part of the sources. *)

(** [**kwargs] with integer values ([chunk_size], [chunk_overlap],
    [min_characters_per_chunk]). *)
Abbreviation kwargs := (gmap string Z).

(** [kwargs.setdefault(key, value)] *)
Definition setdefault (key : string) (value : Z) (kw : kwargs) : kwargs :=
  match kw !! key with
  | Some _ => kw
  | None => <[key := value]> kw
  end.

(** [for key, value in d.items(): kwargs.setdefault(key, value)] *)
Definition apply_defaults (d : list (string * Z)) (kw : kwargs) : kwargs :=
  fold_left (fun acc kv => setdefault kv.1 kv.2 acc) d kw.

(** The arguments of a call [RecursiveCharacterTextSplitter(...)];
    [keep_separator] is [None] where the call leaves it out. *)
Record TextSplitterArgs : Type := {
  separators : list string;
  is_separator_regex : bool;
  keep_separator : option string;
  splitter_kwargs : kwargs
}.

(** ** chunking_lang.py *)

Module ChunkingLang.
Import PyStr PyRe Patterns.

Module AnsibleLogSplitter.

Definition base_separators : list string :=
  [ "^PLAY \[.*?\] \*+";
    "^PLAY RECAP \*+";
    "^TASK \[.*?\] \*+";
    "^RUNNING HANDLER \[.*?\] \*+";
    "^[A-Za-z0-9\.\-_]+\s*:\s*ok=\d+";
    "^fatal: \[.*?\]: FAILED!";
    "^FAILED - RETRYING:";
    "^UNREACHABLE!";
    "^[A-Za-z]+ \d+ [A-Za-z]+ \d{4}\s+\d{2}:\d{2}:\d{2}";
    nl +:+ nl;
    nl;
    " ";
    "" ].

Definition separators_for (splitter_type : string) : list string :=
  if String.eqb splitter_type "alert" then
    [ "^fatal: \[.*?\]: FAILED!";
      "^UNREACHABLE!";
      "^FAILED - RETRYING:";
      "^TASK \[.*?\] \*+";
      nl +:+ nl; nl; " "; "" ]
  else if String.eqb splitter_type "error" then
    [ "^fatal: \[.*?\]: FAILED!";
      "^UNREACHABLE!";
      "^FAILED - RETRYING:";
      nl +:+ nl; nl; " "; "" ]
  else base_separators.

(** [defaults.get(splitter_type, defaults["context"])] *)
Definition defaults (splitter_type : string) : list (string * Z) :=
  if String.eqb splitter_type "alert" then
    [("chunk_size", 500%Z); ("chunk_overlap", 50%Z)]
  else if String.eqb splitter_type "error" then
    [("chunk_size", 1000%Z); ("chunk_overlap", 100%Z)]
  else
    [("chunk_size", 2000%Z); ("chunk_overlap", 200%Z)].

(** [AnsibleLogSplitter(splitter_type, **kwargs)]: the arguments handed
    to [super().__init__]. *)
Definition __init__ (splitter_type : string) (kw : kwargs) : TextSplitterArgs :=
  {| separators := separators_for splitter_type;
     is_separator_regex := true;
     keep_separator := Some "start";
     splitter_kwargs := apply_defaults (defaults splitter_type) kw |}.

End AnsibleLogSplitter.

(** The metadata dictionary of one chunk. *)
Record Metadata : Type := {
  chunk_index : nat;
  chunk_text : string;
  playbook_name : option string;
  task_name : option string;
  hosts : list string;
  status : option string;
  timestamp : option string;
  has_error : bool;
  error_type : option string;
  duration : option string;
  retry_count : Z
}.

(** The values the [if]/[elif] chain on the status patterns gives to
    [status], [has_error], [error_type] and [retry_count]. *)
Record Status : Type := {
  st_status : option string;
  st_has_error : bool;
  st_error_type : option string;
  st_retry_count : Z
}.

(** The extractor runs on an interpreter with the limit [max_str_digits]
    on the digits of a numeral. *)
Section Interpreter.

Variable max_str_digits : nat.

Definition status_of (chunk : string) : result Status :=
  if found failed_bang chunk then
    Ok {| st_status := Some "FAILED"; st_has_error := true;
          st_error_type := Some "TASK_FAILED"; st_retry_count := 0 |}
  else if found unreachable_bang chunk then
    Ok {| st_status := Some "UNREACHABLE"; st_has_error := true;
          st_error_type := Some "HOST_UNREACHABLE"; st_retry_count := 0 |}
  else if found failed_retrying chunk then
    count ← match search retries_left chunk with
            | Some retry_match => int_opt max_str_digits (group 1 retry_match)
            | None => Ok 0%Z
            end;
    Ok {| st_status := Some "RETRYING"; st_has_error := true;
          st_error_type := Some "RETRY_FAILURE"; st_retry_count := count |}
  else if found changed_colon chunk then
    Ok {| st_status := Some "CHANGED"; st_has_error := false;
          st_error_type := None; st_retry_count := 0 |}
  else if found ok_colon chunk then
    Ok {| st_status := Some "OK"; st_has_error := false;
          st_error_type := None; st_retry_count := 0 |}
  else if found skipping_colon chunk then
    Ok {| st_status := Some "SKIPPING"; st_has_error := false;
          st_error_type := None; st_retry_count := 0 |}
  else
    Ok {| st_status := None; st_has_error := false;
          st_error_type := None; st_retry_count := 0 |}.

(** The [for pattern in timestamp_patterns] loop with its [break]. *)
Fixpoint first_timestamp (ps : list pattern) (chunk : string) : option string :=
  match ps with
  | [] => None
  | p :: ps' =>
      match search p chunk with
      | Some timestamp_match => group 1 timestamp_match
      | None => first_timestamp ps' chunk
      end
  end.

(** The body of the loop of [extract_ansible_metadata_from_chunks]. *)
Definition extract_one (i : nat) (chunk : string) : result Metadata :=
  st ← status_of chunk;
  Ok {| chunk_index := i;
        chunk_text := chunk;
        playbook_name := search_group1 play_name chunk;
        task_name := search_group1 task_name_pat chunk;
        hosts := match host_matches chunk with
                 | [] => []
                 | matches => list_of_set matches
                 end;
        status := st_status st;
        timestamp := first_timestamp timestamp_patterns chunk;
        has_error := st_has_error st;
        error_type := st_error_type st;
        duration := search_group1 duration_pat chunk;
        retry_count := st_retry_count st |}.

Definition extract_ansible_metadata_from_chunks (chunks : list string)
    : result (list Metadata) :=
  for_each (fun ic => extract_one ic.1 ic.2) (enumerate_from 0 chunks).

End Interpreter.

(** [create_specialized_splitters]:
    [(alert_splitter, context_splitter, error_splitter)]. *)
Definition create_specialized_splitters
    : TextSplitterArgs * TextSplitterArgs * TextSplitterArgs :=
  ( AnsibleLogSplitter.__init__ "alert"
      {[ "chunk_size" := 400%Z; "chunk_overlap" := 50%Z ]},
    AnsibleLogSplitter.__init__ "context"
      {[ "chunk_size" := 2500%Z; "chunk_overlap" := 200%Z ]},
    AnsibleLogSplitter.__init__ "error"
      {[ "chunk_size" := 800%Z; "chunk_overlap" := 100%Z ]} ).

(** [create_ansible_splitter_for_monitoring] *)
Definition create_ansible_splitter_for_monitoring : TextSplitterArgs :=
  AnsibleLogSplitter.__init__ "context"
    {[ "chunk_size" := 3500%Z; "chunk_overlap" := 300%Z ]}.

End ChunkingLang.

(** ** chonkie_chunking.py *)

Module ChonkieChunking.
Import PyStr PyRe Patterns.

(** [include_delim] of a [RecursiveLevel]. *)
Inductive IncludeDelim : Type :=
| prev
| next.

(** The arguments of a call [RecursiveLevel(...)]: [delimiters] is empty
    and [include_delim] is [None] where the call leaves them out, and
    [whitespace] is [false] unless the call sets it. *)
Record RecursiveLevel : Type := {
  delimiters : list string;
  whitespace : bool;
  include_delim : option IncludeDelim
}.

Record RecursiveRules : Type := { levels : list RecursiveLevel }.

Definition delim_level (ds : list string) (incl : option IncludeDelim)
    : RecursiveLevel :=
  {| delimiters := ds; whitespace := false; include_delim := incl |}.

Definition whitespace_level : RecursiveLevel :=
  {| delimiters := []; whitespace := true; include_delim := None |}.

(** A recursive chunk as chonkie returns it. *)
Record RecursiveChunk : Type := {
  text : string;
  level : Z;
  start_index : Z;
  end_index : Z;
  token_count : Z
}.

(** The arguments of the call [RecursiveChunker(...)]. *)
Record RecursiveChunkerArgs : Type := {
  rules : RecursiveRules;
  tokenizer_or_token_counter : string;
  chunker_kwargs : kwargs
}.

Module AnsibleChonkieLogSplitter.

Definition _create_ansible_rules (splitter_type : string) : RecursiveRules :=
  if String.eqb splitter_type "alert" then
    {| levels :=
         [ delim_level ["PLAY RECAP ************"] (Some next);
           delim_level ["fatal: ["; "UNREACHABLE!"; "FAILED - RETRYING:"]
             (Some next);
           delim_level ["TASK ["] (Some next);
           delim_level [nl +:+ nl] None;
           whitespace_level ] |}
  else if String.eqb splitter_type "error" then
    {| levels :=
         [ delim_level ["PLAY RECAP ************"] (Some next);
           delim_level ["fatal: ["; "UNREACHABLE!"; "FAILED - RETRYING:";
                        "ERROR!"] (Some next);
           delim_level ["TASK ["] (Some next);
           delim_level [nl +:+ nl] None;
           whitespace_level ] |}
  else
    {| levels :=
         [ delim_level ["PLAY RECAP ************"] (Some next);
           delim_level ["PLAY ["] (Some next);
           delim_level ["TASK ["; "RUNNING HANDLER ["] (Some next);
           delim_level [": ok="; ": changed="; ": failed="] (Some prev);
           delim_level ["fatal: ["; "UNREACHABLE!"; "FAILED - RETRYING:"]
             (Some next);
           delim_level [" +0000 ("; " GMT ("] (Some prev);
           delim_level [nl +:+ nl] None;
           delim_level [nl] None;
           whitespace_level ] |}.

(** [defaults.get(splitter_type, defaults["context"])] *)
Definition defaults (splitter_type : string) : list (string * Z) :=
  if String.eqb splitter_type "alert" then
    [("chunk_size", 500%Z); ("min_characters_per_chunk", 50%Z)]
  else if String.eqb splitter_type "error" then
    [("chunk_size", 1000%Z); ("min_characters_per_chunk", 75%Z)]
  else
    [("chunk_size", 2000%Z); ("min_characters_per_chunk", 100%Z)].

(** [AnsibleChonkieLogSplitter(splitter_type, **kwargs)]: the arguments
    handed to [RecursiveChunker]. *)
Definition __init__ (splitter_type : string) (kw : kwargs)
    : RecursiveChunkerArgs :=
  {| rules := _create_ansible_rules splitter_type;
     tokenizer_or_token_counter := "character";
     chunker_kwargs := apply_defaults (defaults splitter_type) kw |}.

End AnsibleChonkieLogSplitter.

(** The methods [chunk] and [split_text] pass the text to the chunker of
    the library and return what it returns; the library stands here as a
    parameter. *)
Section Library.

Variable RecursiveChunker_chunk :
  RecursiveChunkerArgs -> string -> result (list RecursiveChunk).

Definition chunk (self : RecursiveChunkerArgs) (log : string)
    : result (list RecursiveChunk) :=
  RecursiveChunker_chunk self log.

Definition split_text (self : RecursiveChunkerArgs) (log : string)
    : result (list string) :=
  chunks ← chunk self log; Ok (map text chunks).

End Library.

(** One entry of [host_stats]. *)
Record HostStats : Type := {
  hs_ok : Z;
  hs_changed : Z;
  hs_unreachable : Z;
  hs_failed : Z;
  hs_skipped : Z;
  hs_rescued : Z;
  hs_ignored : Z
}.

(** One entry of [task_timings]. *)
Record TaskTiming : Type := {
  task : string;
  duration_seconds : pyfloat
}.

(** The metadata dictionary of one chunk. *)
Record Metadata : Type := {
  chunk_index : nat;
  chunk_text : string;
  chunk_type : string;
  chonkie_level : Z;
  chonkie_start : Z;
  chonkie_end : Z;
  chonkie_token_count : Z;
  playbook_name : option string;
  task_names : list string;
  hosts : list string;
  statuses : list string;
  timestamps : list string;
  has_error : bool;
  error_types : list string;
  durations : list string;
  retry_counts : list Z;
  host_stats : list (string * HostStats);
  task_timings : list TaskTiming
}.

(** [d[key] = value] on a dictionary kept in insertion order. *)
Fixpoint dict_set {V : Type} (key : string) (value : V) (d : list (string * V))
    : list (string * V) :=
  match d with
  | [] => [(key, value)]
  | (k, v) :: d' =>
      if String.eqb k key then (k, value) :: d'
      else (k, v) :: dict_set key value d'
  end.

(** What the loop over the lines of a PLAY RECAP updates. *)
Record Recap : Type := {
  rc_host_stats : list (string * HostStats);
  rc_has_error : bool;
  rc_error_types : list string
}.

Definition separator_line : string :=
  "===============================================================================".

(** The [task_timings] found by the [if 'TASKS RECAP' ... elif ...]
    statement; [None] when [has_task_timings] stays [False]. *)
Definition find_task_timings (chunk_text : string) : option (list (list string)) :=
  if contains "TASKS RECAP" chunk_text then
    Some (findalln 2 timing_pattern chunk_text)
  else if contains separator_line chunk_text then
    let parts := split separator_line chunk_text in
    if Nat.ltb 1 (length parts)
    then Some (findalln 2 timing_pattern (List.last parts ""))
    else Some []
  else None.

Definition timing_entry (t : list string) : result TaskTiming :=
  match t with
  | [task_name; duration] =>
      d ← float duration;
      Ok {| task := strip task_name; duration_seconds := d |}
  | _ => Raise ValueError
  end.

(** [sort(key=lambda x: x['duration_seconds'], reverse=True)]: a stable
    sort, longest first. *)
Fixpoint insert_timing (x : TaskTiming) (l : list TaskTiming) : list TaskTiming :=
  match l with
  | [] => [x]
  | y :: l' =>
      if float_ltb (duration_seconds y) (duration_seconds x)
      then x :: y :: l'
      else y :: insert_timing x l'
  end.

Definition sort_timings (l : list TaskTiming) : list TaskTiming :=
  fold_left (fun acc x => insert_timing x acc) l [].

(** [status_patterns]: pattern, status name, error type. *)
Definition status_patterns : list (pattern * string * option string) :=
  [ (failed_bang, "FAILED", Some "TASK_FAILED");
    (unreachable_bang, "UNREACHABLE", Some "HOST_UNREACHABLE");
    (failed_retrying, "RETRYING", Some "RETRY_FAILURE");
    (changed_colon, "CHANGED", None);
    (ok_colon, "OK", None);
    (skipping_colon, "SKIPPING", None);
    (included_colon, "INCLUDED", None) ].

(** What the loop over [status_patterns] updates. *)
Record Statuses : Type := {
  ss_statuses : list string;
  ss_has_error : bool;
  ss_error_types : list string
}.

Definition status_step (chunk_text : string) (acc : Statuses)
    (entry : pattern * string * option string) : Statuses :=
  let '(p, status_name, error_type) := entry in
  let matches := findall0 p chunk_text in
  match matches with
  | [] => acc
  | _ =>
      let statuses' := ss_statuses acc ++ replicate (length matches) status_name in
      match error_type with
      | Some e =>
          {| ss_statuses := statuses'; ss_has_error := true;
             ss_error_types := ss_error_types acc ++ replicate (length matches) e |}
      | None =>
          {| ss_statuses := statuses'; ss_has_error := ss_has_error acc;
             ss_error_types := ss_error_types acc |}
      end
  end.

(** The extractor runs on an interpreter with the limit [max_str_digits]
    on the digits of a numeral. *)
Section Interpreter.

Variable max_str_digits : nat.

Definition recap_step (acc : Recap) (host_stat : list string) : result Recap :=
  match host_stat with
  | [hostname; ok; changed; unreachable; failed; skipped; rescued; ignored] =>
      n_ok ← int max_str_digits ok;
      n_changed ← int max_str_digits changed;
      n_unreachable ← int max_str_digits unreachable;
      n_failed ← int max_str_digits failed;
      n_skipped ← int max_str_digits skipped;
      n_rescued ← int max_str_digits rescued;
      n_ignored ← int max_str_digits ignored;
      let stats :=
        {| hs_ok := n_ok; hs_changed := n_changed;
           hs_unreachable := n_unreachable; hs_failed := n_failed;
           hs_skipped := n_skipped; hs_rescued := n_rescued;
           hs_ignored := n_ignored |} in
      let host_stats' := dict_set hostname stats (rc_host_stats acc) in
      if (0 <? n_failed)%Z || (0 <? n_unreachable)%Z then
        Ok {| rc_host_stats := host_stats';
              rc_has_error := true;
              rc_error_types :=
                rc_error_types acc
                ++ (if (0 <? n_unreachable)%Z then ["HOST_UNREACHABLE_SUMMARY"] else [])
                ++ (if (0 <? n_failed)%Z then ["TASK_FAILED_SUMMARY"] else []) |}
      else
        Ok {| rc_host_stats := host_stats';
              rc_has_error := rc_has_error acc;
              rc_error_types := rc_error_types acc |}
  | _ => Raise ValueError
  end.

Fixpoint recap_loop (acc : Recap) (host_stats : list (list string)) : result Recap :=
  match host_stats with
  | [] => Ok acc
  | host_stat :: rest => acc' ← recap_step acc host_stat; recap_loop acc' rest
  end.

(** The body of the loop of [extract_ansible_metadata_from_chonkie_chunks]. *)
Definition extract_one (i : nat) (chunk : RecursiveChunk) : result Metadata :=
  let chunk_text := text chunk in
  let is_recap := found play_recap chunk_text in
  recap ← (if is_recap
           then recap_loop
                  {| rc_host_stats := []; rc_has_error := false; rc_error_types := [] |}
                  (findalln 8 host_stat_pattern chunk_text)
           else Ok {| rc_host_stats := []; rc_has_error := false;
                      rc_error_types := [] |});
  let hosts1 := if is_recap then map fst (rc_host_stats recap) else [] in
  let found_timings := find_task_timings chunk_text in
  timings ← (match found_timings with
             | Some task_timings => for_each timing_entry task_timings
             | None => Ok []
             end);
  let summary := is_recap || bool_decide (is_Some found_timings) in
  let matches := host_matches chunk_text in
  let st :=
    fold_left (status_step chunk_text) status_patterns
      {| ss_statuses := if summary then ["SUMMARY"] else [];
         ss_has_error := rc_has_error recap;
         ss_error_types := rc_error_types recap |} in
  counts ← for_each (int max_str_digits) (findall1 retries_left chunk_text);
  Ok {| chunk_index := i;
        chunk_text := chunk_text;
        chunk_type := if summary then "RECAP" else "standard";
        chonkie_level := level chunk;
        chonkie_start := start_index chunk;
        chonkie_end := end_index chunk;
        chonkie_token_count := token_count chunk;
        playbook_name :=
          if summary then None
          else search_group1 play_name chunk_text;
        task_names := if summary then [] else findall1 task_name_pat chunk_text;
        hosts := match matches with
                 | [] => hosts1
                 | _ => list_of_set matches
                 end;
        statuses := ss_statuses st;
        timestamps :=
          concat (map (fun p => findall1 p chunk_text) timestamp_patterns);
        has_error := ss_has_error st;
        error_types := ss_error_types st;
        durations := findall1 duration_pat chunk_text;
        retry_counts := counts;
        host_stats := rc_host_stats recap;
        task_timings := sort_timings timings |}.

Definition extract_ansible_metadata_from_chonkie_chunks
    (chunks : list RecursiveChunk) : result (list Metadata) :=
  for_each (fun ic => extract_one ic.1 ic.2) (enumerate_from 0 chunks).

End Interpreter.

(** [create_specialized_chonkie_splitters]:
    [(alert_splitter, context_splitter, error_splitter)]. *)
Definition create_specialized_chonkie_splitters
    : RecursiveChunkerArgs * RecursiveChunkerArgs * RecursiveChunkerArgs :=
  ( AnsibleChonkieLogSplitter.__init__ "alert"
      {[ "chunk_size" := 400%Z; "min_characters_per_chunk" := 50%Z ]},
    AnsibleChonkieLogSplitter.__init__ "context"
      {[ "chunk_size" := 2500%Z; "min_characters_per_chunk" := 100%Z ]},
    AnsibleChonkieLogSplitter.__init__ "error"
      {[ "chunk_size" := 800%Z; "min_characters_per_chunk" := 75%Z ]} ).

End ChonkieChunking.

(** ** main.py *)

Module Main.
Import PyStr.

Module AnsibleLogSplitter.

Definition ansible_separators : list string :=
  [ "\nPLAY \[.*?\] \*+\n";
    "\nTASK \[.*?\] \*+\n";
    "\nPLAY RECAP \*+\n";
    "\n[A-Za-z0-9\.\-_]+\s*:\s*ok=\d+";
    "\n[A-Za-z]+ \d+ [A-Za-z]+ \d{4}\s+\d{2}:\d{2}:\d{2}";
    nl +:+ nl;
    nl;
    " ";
    "" ].

(** The constructor, called with keyword arguments only: the arguments
    handed to [super().__init__]. *)
Definition __init__ (kw : kwargs) : TextSplitterArgs :=
  {| separators := ansible_separators;
     is_separator_regex := true;
     keep_separator := None;
     splitter_kwargs := kw |}.

End AnsibleLogSplitter.

(** The separators of the [error_splitter] of [create_ansible_splitters]. *)
Definition error_separators : list string :=
  [ "\nfatal: \[.*?\]: FAILED!";
    "\nERROR!";
    "\nFAILED - RETRYING:";
    "\nUNREACHABLE!";
    nl +:+ nl;
    nl ].

Definition sizes (chunk_size chunk_overlap : Z) : kwargs :=
  {[ "chunk_size" := chunk_size; "chunk_overlap" := chunk_overlap ]}.

(** The three constructor calls of [create_ansible_splitters]:
    [(alert_splitter, context_splitter, error_splitter)]. *)
Definition create_ansible_splitters
    : TextSplitterArgs * TextSplitterArgs * TextSplitterArgs :=
  ( AnsibleLogSplitter.__init__ (sizes 500 50),
    AnsibleLogSplitter.__init__ (sizes 2000 100),
    {| separators := error_separators;
       is_separator_regex := true;
       keep_separator := None;
       splitter_kwargs := sizes 1000 50 |} ).

End Main.

(** ** What a match reads: a relational account of the matcher *)

Module PyReSpec.
Import PyStr PyRe.

(** The test a pattern of one character makes on it. *)
Definition char_test (fl : flags) (r : regex) : option (ascii -> bool) :=
  match r with
  | Chr c => Some (chr_eq fl c)
  | Cls p => Some p
  | Dot => Some (fun x => negb (ascii_eqb x NL))
  | _ => None
  end.

(** [steps fl r s s']: the expression [r] can take the matcher from the
    state [s] to the state [s']. *)
Inductive steps (fl : flags) : regex -> mstate -> mstate -> Prop :=
| steps_eps s :
    steps fl Eps s s
| steps_char r p s x xs :
    char_test fl r = Some p -> m_after s = x :: xs -> p x = true ->
    steps fl r s (advance x xs s)
| steps_bol s :
    at_bol fl s = true -> steps fl Bol s s
| steps_cat r1 r2 s s1 s2 :
    steps fl r1 s s1 -> steps fl r2 s1 s2 -> steps fl (Cat r1 r2) s s2
| steps_alt_l r1 r2 s s' :
    steps fl r1 s s' -> steps fl (Alt r1 r2) s s'
| steps_alt_r r1 r2 s s' :
    steps fl r2 s s' -> steps fl (Alt r1 r2) s s'
| steps_star_stop g r s :
    steps fl (Star g r) s s
| steps_star_more g r s s1 s2 :
    steps fl r s s1 -> steps fl (Star g r) s1 s2 -> steps fl (Star g r) s s2
| steps_group i r s s' :
    steps fl r s s' -> steps fl (Group i r) s (set_cap i (consumed s s') s').

(** [s'] is [s] after reading the word [w]. *)
Definition reads (w : list ascii) (s s' : mstate) : Prop :=
  m_before s' = rev w ++ m_before s /\ m_after s = w ++ m_after s'.

(** Every character that [r] can read satisfies [p]. *)
Fixpoint reads_only (p : ascii -> bool) (r : regex) : Prop :=
  match r with
  | Eps | Bol => True
  | Chr _ | Dot => False
  | Cls q => forall x, q x = true -> p x = true
  | Cat r1 r2 | Alt r1 r2 => reads_only p r1 /\ reads_only p r2
  | Star _ r1 | Group _ r1 => reads_only p r1
  end.

(** Every match of [r] reads at least one character. *)
Fixpoint progresses (r : regex) : bool :=
  match r with
  | Chr _ | Cls _ | Dot => true
  | Eps | Bol | Star _ _ => false
  | Cat r1 r2 => progresses r1 || progresses r2
  | Alt r1 r2 => progresses r1 && progresses r2
  | Group _ r1 => progresses r1
  end.

(** Every match of [r] closes the group [i]. *)
Fixpoint binds (i : nat) (r : regex) : bool :=
  match r with
  | Group j r1 => Nat.eqb i j || binds i r1
  | Cat r1 r2 => binds i r1 || binds i r2
  | Alt r1 r2 => binds i r1 && binds i r2
  | _ => false
  end.

(** Every text a group [i] of [r] can capture satisfies [Q i]. *)
Fixpoint groups_sat (fl : flags) (Q : nat -> list ascii -> Prop) (r : regex) : Prop :=
  match r with
  | Group i r1 =>
      (forall s s', steps fl r1 s s' -> Q i (consumed s s')) /\ groups_sat fl Q r1
  | Cat r1 r2 | Alt r1 r2 => groups_sat fl Q r1 /\ groups_sat fl Q r2
  | Star _ r1 => groups_sat fl Q r1
  | _ => True
  end.

Definition caps_sat (Q : nat -> list ascii -> Prop) (caps : list (nat * list ascii)) : Prop :=
  forall i w, In (i, w) caps -> Q i w.

(** A non-empty string of decimal digits. *)
Definition numeral (w : list ascii) : Prop :=
  w <> [] /\ forallb is_digit w = true.

End PyReSpec.

(** ** The properties stated of the sources *)

Module Spec.
Import PyStr PyRe Patterns.

(** *** Level tables *)

(** A langchain separator that can cut any text of two characters or
    more: the empty separator, which cuts between any two characters. *)
Definition separator_is_fallback (sep : string) : bool := String.eqb sep "".

(** A chonkie level taken as a fallback: the white-space level, or a
    level that names no delimiter. *)
Definition level_is_fallback (l : ChonkieChunking.RecursiveLevel) : bool :=
  ChonkieChunking.whitespace l
  || bool_decide (ChonkieChunking.delimiters l = []).

(** The last level of a table is a fallback; an empty table has none. *)
Definition ends_with {A : Type} (is_fallback : A -> bool) (table : list A) : bool :=
  match List.last (map Some table) None with
  | Some l => is_fallback l
  | None => false
  end.

Definition separators_end_with_fallback (args : TextSplitterArgs) : bool :=
  ends_with separator_is_fallback (separators args).

Definition rules_end_with_fallback (r : ChonkieChunking.RecursiveRules) : bool :=
  ends_with level_is_fallback (ChonkieChunking.levels r).

(** *** Status of a chunk in [chunking_lang.py] *)

(** [marker] is at the head of [text], letter case apart. *)
Fixpoint prefix_ignoring_case (marker text : list ascii) : bool :=
  match marker, text with
  | [], _ => true
  | _ :: _, [] => false
  | a :: marker', b :: text' =>
      ascii_eqb (lower a) (lower b) && prefix_ignoring_case marker' text'
  end.

Fixpoint occurs_chars (marker text : list ascii) : bool :=
  prefix_ignoring_case marker text ||
  match text with
  | [] => false
  | _ :: text' => occurs_chars marker text'
  end.

(** [marker] occurs somewhere in [text], letter case apart. *)
Definition occurs_ignoring_case (marker text : string) : bool :=
  occurs_chars (chars marker) (chars text).

(** The status markers in their order of priority, with the status each
    one gives. *)
Definition status_priority : list (string * string) :=
  [ ("FAILED!", "FAILED");
    ("UNREACHABLE!", "UNREACHABLE");
    ("FAILED - RETRYING", "RETRYING");
    ("changed:", "CHANGED");
    ("ok:", "OK");
    ("skipping:", "SKIPPING") ].

(** The status of the first marker, in that order, that occurs in the
    chunk. *)
Definition first_match_status (chunk : string) : option string :=
  snd <$> List.find (fun e => occurs_ignoring_case (fst e) chunk) status_priority.

Definition error_statuses : list string := ["FAILED"; "UNREACHABLE"; "RETRYING"].

Definition is_error_status (st : option string) : Prop :=
  exists s, st = Some s /\ In s error_statuses.

(** What is stated of the four fields that depend on the status. *)
Definition status_fields_ok (chunk : string) (status : option string)
    (has_error : bool) (error_type : option string) (retry_count : Z) : Prop :=
  (has_error = true <-> error_type <> None)
  /\ (error_type <> None <-> is_error_status status)
  /\ status = first_match_status chunk
  /\ (retry_count <> 0%Z -> status = Some "RETRYING").

(** What is stated of the record emitted for [chunk]. *)
Definition status_record_ok (chunk : string) (m : ChunkingLang.Metadata) : Prop :=
  status_fields_ok chunk (ChunkingLang.status m) (ChunkingLang.has_error m)
    (ChunkingLang.error_type m) (ChunkingLang.retry_count m).

(** *** Parallel lists *)

(** No numeral in [chunk] is too long for the interpreter: there is no
    limit, or the chunk itself is within it. *)
Definition within_limit (max_str_digits : nat) (chunk : string) : Prop :=
  max_str_digits = 0 \/ String.length chunk <= max_str_digits.

(** A chunk whose text holds a line of task timings with two points in
    its duration. *)
Definition malformed_timing_chunk : ChonkieChunking.RecursiveChunk :=
  {| ChonkieChunking.text := "TASKS RECAP" +:+ nl +:+ "setup - 1.2.3s";
     ChonkieChunking.level := 0;
     ChonkieChunking.start_index := 0;
     ChonkieChunking.end_index := 26;
     ChonkieChunking.token_count := 26 |}.

(** A chunk of a log with a failed task, the markers in lower case. *)
Definition sample_failed_chunk : string :=
  "TASK [Check venv] ****" +:+ nl
  +:+ "Friday 18 July 2025  21:02:54 +0000 (0:00:00.024)       0:00:29.650 ****" +:+ nl
  +:+ "ok: [localhost]" +:+ nl
  +:+ "fatal: [bastion.25cj7.internal]: unreachable! => failed!".

(** A chunk with a count of retries of [digits] digits. *)
Definition long_count_chunk (digits : nat) : string :=
  "FAILED - RETRYING: (" +:+ str (repeat "9"%char digits) +:+ " retries left)".

(** The summary at the end of a log. *)
Definition sample_recap_chunk : ChonkieChunking.RecursiveChunk :=
  {| ChonkieChunking.text :=
       "PLAY RECAP *********" +:+ nl
       +:+ "web-1 : ok=12 changed=3 unreachable=0 failed=1 skipped=2 rescued=0 ignored=0"
       +:+ nl
       +:+ "db.x  : ok=9  changed=0 unreachable=1 failed=0 skipped=0 rescued=0 ignored=0"
       +:+ nl +:+ "TASKS RECAP ****" +:+ nl
       +:+ "setup ------- 1.5s" +:+ nl
       +:+ "install ----- 12.25s";
     ChonkieChunking.level := 0;
     ChonkieChunking.start_index := 100;
     ChonkieChunking.end_index := 331;
     ChonkieChunking.token_count := 231 |}.

(** [records] is parallel to [texts]: the same length, the record at
    position [i] has index [i] and the text at position [i]. *)
Definition parallel {R : Type} (index : R -> nat) (text_of : R -> string)
    (texts : list string) (records : list R) : Prop :=
  length records = length texts
  /\ map index records = seq 0 (length texts)
  /\ map text_of records = texts.

End Spec.

(** ** chunking_lang.py: the alerts *)

Module Alerts.
Import PyStr ChunkingLang.

(** One entry of [alert_patterns]; the condition is the lambda of the
    source, on a metadata dictionary of the extractor. *)
Record AlertPattern : Type := {
  condition : Metadata -> bool;
  severity : string;
  description : string;
  natural_language : string
}.

(** [m.get('error_type') == e] *)
Definition error_type_is (e : string) (m : Metadata) : bool :=
  bool_decide (error_type m = Some e).

(** The truth value of an optional string: [None] and the empty string
    are false. *)
Definition truthy (x : option string) : bool :=
  match x with
  | Some s => negb (String.eqb s "")
  | None => false
  end.

Definition alert_patterns : list (string * AlertPattern) :=
  [ ("unreachable_hosts",
     {| condition := error_type_is "HOST_UNREACHABLE";
        severity := "critical";
        description := "Host became unreachable during Ansible execution";
        natural_language := "Page me if any host shows UNREACHABLE status" |});
    ("failed_tasks",
     {| condition := error_type_is "TASK_FAILED";
        severity := "high";
        description := "Ansible task execution failed";
        natural_language := "Alert when Ansible tasks fail" |});
    ("retry_failures",
     {| condition := fun m =>
          error_type_is "RETRY_FAILURE" m && (retry_count m <? 3)%Z;
        severity := "medium";
        description := "Task is retrying with few attempts remaining";
        natural_language := "Notify if task retries are running low" |});
    ("playbook_duration_anomaly",
     {| condition := fun m => truthy (playbook_name m) && truthy (duration m);
        severity := "low";
        description := "Playbook execution time exceeds baseline";
        natural_language := "Alert if playbook duration exceeds normal baseline" |}) ].

(** One entry of [triggered_alerts]. *)
Record Triggered : Type := {
  pattern : AlertPattern;
  triggered_by : list Metadata;
  count : nat
}.

(** The body of the loop over [alert_patterns.items()]. *)
Definition alert_step (metadata_chunks : list Metadata)
    (triggered_alerts : list (string * Triggered))
    (item : string * AlertPattern) : list (string * Triggered) :=
  let '(pattern_name, pattern_config) := item in
  let matching_chunks := List.filter (condition pattern_config) metadata_chunks in
  match matching_chunks with
  | [] => triggered_alerts
  | _ =>
      ChonkieChunking.dict_set pattern_name
        {| pattern := pattern_config;
           triggered_by := matching_chunks;
           count := length matching_chunks |}
        triggered_alerts
  end.

Definition create_alert_patterns_from_metadata (metadata_chunks : list Metadata)
    : list (string * Triggered) :=
  fold_left (alert_step metadata_chunks) alert_patterns [].

End Alerts.

(** ** main.py: the first metadata extractor *)

Module MainMetadata.
Import PyStr PyRe Patterns.

Local Open Scope char_scope.

(** [[a-zA-Z0-9\.\-_]] *)
Definition host_name_char (c : ascii) : bool :=
  is_ascii_alpha c || is_digit c || ascii_eqb c "." || ascii_eqb c "-"
  || ascii_eqb c "_".

(** [r'^([a-zA-Z0-9\.\-_]+)\s*:'], with [re.MULTILINE] *)
Definition host_line : pattern :=
  pat MULTILINE [Bol; Group 1 (plus true (Cls host_name_char)); Star true space;
                 Chr ":"].

Local Open Scope string_scope.

(** The metadata dictionary of one chunk. *)
Record Metadata : Type := {
  chunk_text : string;
  playbook_name : option string;
  task_name : option string;
  host : option string;
  status : option string;
  timestamp : option string;
  has_error : bool
}.

(** The [if]/[elif] chain on the markers: [status] and [has_error]. *)
Definition status_of (chunk : string) : option string * bool :=
  if contains "FAILED!" chunk then (Some "FAILED", true)
  else if contains "UNREACHABLE!" chunk then (Some "UNREACHABLE", true)
  else if contains "changed:" chunk then (Some "CHANGED", false)
  else if contains "ok:" chunk then (Some "OK", false)
  else if contains "skipping:" chunk then (Some "SKIPPING", false)
  else (None, false).

(** The body of the loop of [extract_ansible_metadata_from_chunks]. *)
Definition extract_one (chunk : string) : Metadata :=
  {| chunk_text := chunk;
     playbook_name := search_group1 play_name chunk;
     task_name := search_group1 task_name_pat chunk;
     host := search_group1 host_line chunk;
     status := (status_of chunk).1;
     timestamp := search_group1 timestamp_long chunk;
     has_error := (status_of chunk).2 |}.

Definition extract_ansible_metadata_from_chunks (chunks : list string)
    : list Metadata :=
  map extract_one chunks.

End MainMetadata.

(** * Theorems *)

(** ** The matcher *)

Module PyReFacts.
Import PyStr PyRe PyReSpec.

Lemma eat_sound p s k m :
  eat p s k = Some m ->
  exists x xs, m_after s = x :: xs /\ p x = true /\ k (advance x xs s) = Some m.
Proof.
  unfold eat. destruct (m_after s) as [|x xs]; [discriminate|].
  destruct (p x) eqn:Hp; [|discriminate]. eauto.
Qed.

Lemma orelse_some (a b : option mstate) m :
  (a orelse b) = Some m -> a = Some m \/ b = Some m.
Proof. destruct a; auto. Qed.

Lemma star_loop_sound fl g r1 k m :
  (forall s k m, rmatch fl r1 s k = Some m ->
                 exists s', steps fl r1 s s' /\ k s' = Some m) ->
  forall n s,
    star_loop (rmatch fl r1) g k n s = Some m ->
    exists s', steps fl (Star g r1) s s' /\ k s' = Some m.
Proof.
  intros IH1. induction n as [|n IHn]; intros s H; simpl in H.
  - exists s. split; [apply steps_star_stop | done].
  - assert (Hstop : k s = Some m ->
                    exists s', steps fl (Star g r1) s s' /\ k s' = Some m).
    { intros Hk. exists s. split; [apply steps_star_stop | done]. }
    assert (Hmore :
      rmatch fl r1 s
        (fun s1 => if Nat.ltb (m_pos s) (m_pos s1)
                   then star_loop (rmatch fl r1) g k n s1 else None) = Some m ->
      exists s', steps fl (Star g r1) s s' /\ k s' = Some m).
    { intros Hr. apply IH1 in Hr as (s1 & H1 & Hr).
      destruct (Nat.ltb (m_pos s) (m_pos s1)); [|discriminate].
      apply IHn in Hr as (s' & H2 & Hr).
      exists s'. split; [by eapply steps_star_more | done]. }
    destruct g; apply orelse_some in H as [H|H]; auto.
Qed.

(** Whatever the matcher returns was reached by steps of the relation. *)
Lemma rmatch_sound fl r : forall s k m,
  rmatch fl r s k = Some m ->
  exists s', steps fl r s s' /\ k s' = Some m.
Proof.
  induction r as [|c|p| | |r1 IH1 r2 IH2|r1 IH1 r2 IH2|g r1 IH1|i r1 IH1];
    intros s k m H; cbn [rmatch] in H.
  - exists s. split; [apply steps_eps | done].
  - apply eat_sound in H as (x & xs & Ha & Hp & Hk).
    exists (advance x xs s). split; [|done]. by eapply steps_char.
  - apply eat_sound in H as (x & xs & Ha & Hp & Hk).
    exists (advance x xs s). split; [|done]. by eapply steps_char.
  - apply eat_sound in H as (x & xs & Ha & Hp & Hk).
    exists (advance x xs s). split; [|done]. by eapply steps_char.
  - destruct (at_bol fl s) eqn:Hb; [|discriminate].
    exists s. split; [by apply steps_bol | done].
  - apply IH1 in H as (s1 & H1 & H).
    apply IH2 in H as (s2 & H2 & H).
    exists s2. split; [by eapply steps_cat | done].
  - apply orelse_some in H as [H|H].
    + apply IH1 in H as (s' & H1 & H). exists s'. split; [by apply steps_alt_l | done].
    + apply IH2 in H as (s' & H2 & H). exists s'. split; [by apply steps_alt_r | done].
  - by eapply star_loop_sound.
  - apply IH1 in H as (s1 & H1 & H).
    exists (set_cap i (consumed s s1) s1). split; [by apply steps_group | done].
Qed.

Lemma reads_consumed w s s' : reads w s s' -> consumed s s' = w.
Proof.
  intros [Hb _]. unfold consumed, m_pos. rewrite Hb, length_app, length_rev.
  replace (length w + length (m_before s) - length (m_before s)) with (length (rev w))
    by (rewrite length_rev; lia).
  by rewrite take_app_length, rev_involutive.
Qed.

Lemma reads_nil s : reads [] s s.
Proof. by split. Qed.

Lemma reads_app w1 w2 s s1 s2 :
  reads w1 s s1 -> reads w2 s1 s2 -> reads (w1 ++ w2) s s2.
Proof.
  intros [Hb1 Ha1] [Hb2 Ha2]. split.
  - by rewrite Hb2, Hb1, rev_app_distr, app_assoc.
  - by rewrite Ha1, Ha2, app_assoc.
Qed.

(** The word a match reads: not empty when the expression progresses, and
    made of characters of the only class the expression reads. *)
Lemma steps_word fl r s s' :
  steps fl r s s' ->
  exists w, reads w s s'
            /\ (progresses r = true -> w <> [])
            /\ (forall p, reads_only p r -> forallb p w = true).
Proof.
  induction 1 as [s|r p s x xs Hr Ha Hp|s Hb|r1 r2 s s1 s2 _ IH1 _ IH2
                 |r1 r2 s s' _ IH|r1 r2 s s' _ IH|g r s
                 |g r s s1 s2 _ IH1 _ IH2|i r s s' _ IH].
  - exists []. split; [apply reads_nil | done].
  - exists [x]. split; [|split].
    + split; simpl; [done | by rewrite Ha].
    + done.
    + intros q Hq. destruct r; simpl in Hr, Hq; try done.
      injection Hr as <-. simpl. by rewrite (Hq x Hp).
  - exists []. split; [apply reads_nil | done].
  - destruct IH1 as (w1 & R1 & P1 & O1), IH2 as (w2 & R2 & P2 & O2).
    exists (w1 ++ w2). split; [by eapply reads_app | split].
    + simpl. intros [Hp|Hp]%orb_true_iff Hnil; apply app_eq_nil in Hnil as [? ?];
        [by apply (P1 Hp) | by apply (P2 Hp)].
    + intros p [Hp1 Hp2]. rewrite forallb_app, (O1 p Hp1), (O2 p Hp2). done.
  - destruct IH as (w & R & P & O). exists w. split; [done | split].
    + simpl. intros [Hp _]%andb_true_iff. auto.
    + intros p [Hp _]. auto.
  - destruct IH as (w & R & P & O). exists w. split; [done | split].
    + simpl. intros [_ Hp]%andb_true_iff. auto.
    + intros p [_ Hp]. auto.
  - exists []. split; [apply reads_nil | done].
  - destruct IH1 as (w1 & R1 & P1 & O1), IH2 as (w2 & R2 & P2 & O2).
    exists (w1 ++ w2). split; [by eapply reads_app | split; [done|]].
    intros p Hp. rewrite forallb_app, (O1 p Hp), (O2 p Hp). done.
  - destruct IH as (w & R & P & O). exists w. split; [|split; [done|]].
    + destruct R as [Hb Ha]. by split.
    + intros p Hp. apply O, Hp.
Qed.

Lemma assoc_in i l w : assoc i l = Some w -> In (i, w) l.
Proof.
  induction l as [|[j v] l IH]; simpl; [done|].
  destruct (Nat.eqb i j) eqn:E.
  - apply Nat.eqb_eq in E as ->. intros [= ->]. by left.
  - intros H. right. auto.
Qed.

(** A group that is closed stays closed. *)
Lemma steps_keeps_caps fl r s s' i :
  steps fl r s s' -> is_Some (assoc i (m_caps s)) -> is_Some (assoc i (m_caps s')).
Proof.
  induction 1; simpl; auto.
  intros Hs. destruct (Nat.eqb i i0); [by eexists | auto].
Qed.

Lemma steps_binds fl r s s' i :
  steps fl r s s' -> binds i r = true -> is_Some (assoc i (m_caps s')).
Proof.
  induction 1 as [s|r p s x xs Hr Ha Hp|s Hb|r1 r2 s s1 s2 H1 IH1 H2 IH2
                 |r1 r2 s s' _ IH|r1 r2 s s' _ IH|g r s
                 |g r s s1 s2 _ IH1 _ IH2|j r s s' _ IH]; simpl; try done.
  - destruct r; done.
  - intros [Hb|Hb]%orb_true_iff; [|auto].
    eapply steps_keeps_caps; [exact H2 | auto].
  - intros [Hb _]%andb_true_iff. auto.
  - intros [_ Hb]%andb_true_iff. auto.
  - destruct (Nat.eqb i j); [by eexists | simpl; auto].
Qed.

Lemma steps_caps_sat fl Q r s s' :
  steps fl r s s' -> groups_sat fl Q r -> caps_sat Q (m_caps s) ->
  caps_sat Q (m_caps s').
Proof.
  induction 1 as [s|r p s x xs Hr Ha Hp|s Hb|r1 r2 s s1 s2 _ IH1 _ IH2
                 |r1 r2 s s' _ IH|r1 r2 s s' _ IH|g r s
                 |g r s s1 s2 _ IH1 _ IH2|j r s s' Hs IH]; simpl; try done.
  - intros [G1 G2]. auto.
  - intros [G1 _]. auto.
  - intros [_ G2]. auto.
  - intros G. auto.
  - intros [GQ G] HC i w [[= <- <-]|Hin]; [by apply GQ|].
    by eapply IH.
Qed.

Lemma length_chars s : length (chars s) = String.length s.
Proof. induction s; simpl; auto. Qed.

Lemma reads_total w s s' :
  reads w s s' ->
  length (m_before s') + length (m_after s')
  = length (m_before s) + length (m_after s).
Proof. intros [-> ->]. rewrite !length_app, length_rev. lia. Qed.

(** A match reads no more than the text that is left. *)
Lemma steps_total fl r s s' :
  steps fl r s s' ->
  length (m_before s') + length (m_after s')
  = length (m_before s) + length (m_after s).
Proof. intros (w & R & _)%steps_word. by eapply reads_total. Qed.

(** No group is longer than the text. *)
Lemma steps_caps_length fl r s s' n :
  steps fl r s s' ->
  length (m_before s) + length (m_after s) <= n ->
  caps_sat (fun _ w => length w <= n) (m_caps s) ->
  caps_sat (fun _ w => length w <= n) (m_caps s').
Proof.
  induction 1 as [s|r p s x xs Hr Ha Hp|s Hb|r1 r2 s s1 s2 H1 IH1 _ IH2
                 |r1 r2 s s' _ IH|r1 r2 s s' _ IH|g r s
                 |g r s s1 s2 H1 IH1 _ IH2|j r s s' Hs IH]; simpl; auto.
  - intros Hn HC. apply IH2; [|auto]. by rewrite (steps_total _ _ _ _ H1).
  - intros Hn HC. apply IH2; [|auto]. by rewrite (steps_total _ _ _ _ H1).
  - intros Hn HC i w [[= <- <-]|Hin]; [|by eapply IH].
    destruct (steps_word _ _ _ _ Hs) as (w & R & _).
    rewrite (reads_consumed _ _ _ R). destruct R as [_ Ha].
    rewrite Ha, length_app in Hn. lia.
Qed.

(** The groups of a match object. *)
Lemma match_at_group (Q : nat -> list ascii -> Prop) p before after m i :
  match_at p before after = Some m ->
  groups_sat (pat_flags p) Q (pat_re p) ->
  binds i (pat_re p) = true ->
  exists w, group i m = Some (str w) /\ Q i w
            /\ length w <= length before + length after.
Proof.
  unfold match_at. intros H G B.
  destruct (rmatch _ _ _ _) as [e|] eqn:E; [|discriminate].
  injection H as <-. apply rmatch_sound in E as (s' & Hs & [= ->]).
  destruct (steps_binds _ _ _ _ i Hs B) as [w Hw].
  exists w. unfold group. simpl. rewrite Hw. split; [done|]. split.
  - eapply steps_caps_sat; [exact Hs | exact G | | by apply assoc_in].
    by intros ? ? [].
  - eapply (steps_caps_length _ _ _ _ _ Hs); [done | | by apply assoc_in].
    by intros ? ? [].
Qed.

Lemma scan_match_at p : forall after before m,
  scan p before after = Some m ->
  exists before' after',
    match_at p before' after' = Some m
    /\ length before' + length after' = length before + length after.
Proof.
  induction after as [|c after IH]; intros before m; simpl;
    destruct (match_at p before _) eqn:E; intros H; try discriminate.
  - injection H as <-. eauto.
  - injection H as <-. eauto.
  - apply IH in H as (b & a & H & Hl). exists b, a. split; [done|].
    simpl in Hl. lia.
Qed.

Lemma search_group (Q : nat -> list ascii -> Prop) p chunk m i :
  search p chunk = Some m ->
  groups_sat (pat_flags p) Q (pat_re p) ->
  binds i (pat_re p) = true ->
  exists w, group i m = Some (str w) /\ Q i w
            /\ length w <= String.length chunk.
Proof.
  intros (b & a & H & Hl)%scan_match_at G B.
  destruct (match_at_group Q _ _ _ _ i H G B) as (w & Hg & HQ & Hw).
  exists w. rewrite <- length_chars. simpl in Hl. split; [done|]. split; [done|lia].
Qed.

(** [[c]+] reads a non-empty word of the class [c], and [\d+] a numeral. *)
Lemma plus_class_word fl g p s s' :
  steps fl (plus g (Cls p)) s s' ->
  consumed s s' <> [] /\ forallb p (consumed s s') = true.
Proof.
  intros (w & R & P & O)%steps_word.
  rewrite (reads_consumed _ _ _ R). split; [by apply P|].
  apply O. simpl. auto.
Qed.

Lemma plus_digit_numeral fl g s s' :
  steps fl (plus g (Cls is_digit)) s s' -> numeral (consumed s s').
Proof. apply plus_class_word. Qed.

Lemma groups_sat_lit fl Q l : groups_sat fl Q (lit_chars l).
Proof. induction l; simpl; auto. Qed.

(** [int] has a value for a numeral that is not too long. *)
Lemma int_numeral max_str_digits w :
  numeral w -> max_str_digits = 0 \/ length w <= max_str_digits ->
  int max_str_digits (str w) = Ok (digits_val w).
Proof.
  intros [Hne Hd] Hmax. unfold int, chars, str.
  rewrite list_ascii_of_string_of_list_ascii. destruct w as [|c w]; [done|].
  rewrite Hd. unfold too_long.
  destruct Hmax as [->|Hmax]; [done|].
  apply Nat.ltb_ge in Hmax. rewrite Hmax. by rewrite andb_false_r.
Qed.

Lemma int_numeral_within max_str_digits chunk w :
  numeral w -> length w <= String.length chunk ->
  Spec.within_limit max_str_digits chunk ->
  int max_str_digits (str w) = Ok (digits_val w).
Proof.
  intros Hw Hl [->|Hc]; apply int_numeral; auto. right. lia.
Qed.

(** [int] has no value for a numeral that is too long. *)
Lemma int_too_long max_str_digits s :
  too_long max_str_digits (chars s) = true ->
  int max_str_digits s = Raise ValueError.
Proof.
  unfold int. intros H. destruct (chars s) as [|c l]; [done|].
  by rewrite H, andb_false_r.
Qed.

Lemma retries_left_groups :
  groups_sat IGNORECASE (fun _ => numeral) (pat_re Patterns.retries_left).
Proof.
  simpl. repeat match goal with |- _ /\ _ => split end;
    auto using groups_sat_lit; intros ? ?; apply plus_digit_numeral.
Qed.

(** The count that [retries_left] captures is a numeral, which [int]
    converts unless it is too long. *)
Lemma retries_left_count max_str_digits chunk m :
  search Patterns.retries_left chunk = Some m ->
  Spec.within_limit max_str_digits chunk ->
  exists n, int_opt max_str_digits (group 1 m) = Ok n.
Proof.
  intros H Hmax.
  destruct (search_group (fun _ => numeral) _ _ _ 1 H retries_left_groups eq_refl)
    as (w & Hg & Hw & Hl).
  exists (digits_val w). rewrite Hg. simpl. by eapply int_numeral_within.
Qed.

(** A literal pattern under [IGNORECASE] matches where the literal is
    at the head of the text, letter case apart. *)
Lemma rmatch_lit l : forall s k,
  (Spec.prefix_ignoring_case l (m_after s) = false ->
   rmatch IGNORECASE (lit_chars l) s k = None)
  /\ (Spec.prefix_ignoring_case l (m_after s) = true ->
      exists s', rmatch IGNORECASE (lit_chars l) s k = k s').
Proof.
  induction l as [|c l IH]; intros s k; simpl.
  - split; [done | eauto].
  - unfold eat. destruct (m_after s) as [|x xs] eqn:Ha; [by split|].
    unfold chr_eq. simpl.
    destruct (ascii_eqb (lower c) (lower x)); simpl; [|by split].
    apply (IH (advance x xs s)).
Qed.

Lemma match_at_lit marker before after :
  is_Some (match_at (Patterns.pat IGNORECASE [lit marker]) before after)
  <-> Spec.prefix_ignoring_case (chars marker) after = true.
Proof.
  unfold match_at, Patterns.pat, lit. cbn [pat_flags pat_re cats rmatch].
  set (s := {| m_before := before; m_after := after; m_caps := [] |}).
  destruct (rmatch_lit (chars marker) s (fun s1 => Some s1)) as [Hn Hy].
  change (m_after s) with after in Hn, Hy.
  destruct (Spec.prefix_ignoring_case (chars marker) after).
  - destruct Hy as [s' ->]; [done|]. split; [done | by eexists].
  - rewrite Hn by done. split; [by intros [? ?] | done].
Qed.

Lemma scan_lit marker : forall after before,
  is_Some (scan (Patterns.pat IGNORECASE [lit marker]) before after)
  <-> Spec.occurs_chars (chars marker) after = true.
Proof.
  induction after as [|c after IH]; intros before;
    cbn [scan Spec.occurs_chars].
  - pose proof (match_at_lit marker before []) as Hm.
    destruct (match_at _ before []) as [m|].
    + rewrite (proj1 Hm) by eauto. split; [done | eauto].
    + destruct (Spec.prefix_ignoring_case (chars marker) []).
      * destruct (proj2 Hm eq_refl) as [? ?]. done.
      * split; [by intros [? ?] | done].
  - pose proof (match_at_lit marker before (c :: after)) as Hm.
    destruct (match_at _ before (c :: after)) as [m|].
    + rewrite (proj1 Hm) by eauto. split; [done | eauto].
    + destruct (Spec.prefix_ignoring_case (chars marker) (c :: after)).
      * destruct (proj2 Hm eq_refl) as [? ?]. done.
      * apply IH.
Qed.

(** Searching a literal pattern with [(?i)] is looking for the literal,
    letter case apart. *)
Lemma found_literal marker chunk :
  Patterns.found (Patterns.pat IGNORECASE [lit marker]) chunk
  = Spec.occurs_ignoring_case marker chunk.
Proof.
  unfold Patterns.found, search, Spec.occurs_ignoring_case.
  pose proof (scan_lit marker (chars chunk) []) as H.
  destruct (Spec.occurs_chars (chars marker) (chars chunk)).
  - by apply bool_decide_eq_true, H.
  - apply bool_decide_eq_false. intros Hs. by apply H in Hs.
Qed.

Lemma finditer_go_match_at p : forall fuel before after m,
  In m (finditer_go fuel p before after) ->
  exists before' after',
    match_at p before' after' = Some m
    /\ length before' + length after' = length before + length after.
Proof.
  induction fuel as [|fuel IH]; intros before after m; simpl; [done|].
  destruct (scan p before after) as [m0|] eqn:E; [|done].
  apply scan_match_at in E.
  destruct (Nat.ltb _ _) eqn:Hk; simpl; intros [<-|H]; eauto; [done|].
  apply IH in H as (b & a & H & Hl). exists b, a. split; [done|].
  apply Nat.ltb_ge in Hk.
  rewrite length_app, length_rev, length_take, length_drop in Hl. lia.
Qed.

(** The groups of the matches that [re.findall] returns. *)
Lemma finditer_group (Q : nat -> list ascii -> Prop) p chunk m i :
  In m (finditer p chunk) ->
  groups_sat (pat_flags p) Q (pat_re p) ->
  binds i (pat_re p) = true ->
  exists w, group i m = Some (str w) /\ Q i w
            /\ length w <= String.length chunk.
Proof.
  intros (b & a & H & Hl)%finditer_go_match_at G B.
  destruct (match_at_group Q _ _ _ _ i H G B) as (w & Hg & HQ & Hw).
  exists w. rewrite <- length_chars. simpl in Hl. split; [done|]. split; [done|lia].
Qed.

Lemma findall1_group (Q : nat -> list ascii -> Prop) p chunk x :
  In x (findall1 p chunk) ->
  groups_sat (pat_flags p) Q (pat_re p) ->
  binds 1 (pat_re p) = true ->
  exists w, x = str w /\ Q 1 w /\ length w <= String.length chunk.
Proof.
  unfold findall1. intros (m & <- & Hm)%in_map_iff G B.
  destruct (finditer_group Q _ _ _ 1 Hm G B) as (w & -> & HQ). eauto.
Qed.

Lemma findalln_groups (Q : nat -> list ascii -> Prop) n p chunk t :
  In t (findalln n p chunk) ->
  groups_sat (pat_flags p) Q (pat_re p) ->
  forallb (fun i => binds i (pat_re p)) (seq 1 n) = true ->
  Forall2 (fun i x => exists w, x = str w /\ Q i w
                                /\ length w <= String.length chunk)
    (seq 1 n) t.
Proof.
  unfold findalln. intros (m & <- & Hm)%in_map_iff G B.
  rewrite forallb_forall in B.
  induction (seq 1 n) as [|i l IH]; simpl; constructor.
  - destruct (finditer_group Q _ _ _ i Hm G) as (w & -> & HQ); [|by eauto].
    apply B. by left.
  - apply IH. intros j Hj. apply B. by right.
Qed.

End PyReFacts.

(** ** Keyword arguments *)

Lemma setdefault_keeps key value (kw : kwargs) k v :
  kw !! k = Some v -> setdefault key value kw !! k = Some v.
Proof.
  unfold setdefault. intros H. destruct (kw !! key) eqn:E; [done|].
  rewrite lookup_insert_ne; [done|]. intros ->. congruence.
Qed.

(** What the caller passes is handed on as it is: the defaults fill in
    only the keys that are absent. *)
Lemma apply_defaults_keeps d : forall (kw : kwargs) k v,
  kw !! k = Some v -> apply_defaults d kw !! k = Some v.
Proof.
  induction d as [|[key value] d IH]; intros kw k v H; simpl; [done|].
  by apply IH, setdefault_keeps.
Qed.

(** ** Loops over the chunks *)

Lemma for_each_ok {A B : Type} (f : A -> result B) (P : A -> B -> Prop) (l : list A) :
  (forall a, In a l -> exists b, f a = Ok b /\ P a b) ->
  exists bs, for_each f l = Ok bs /\ Forall2 P l bs.
Proof.
  induction l as [|a l IH]; intros H; simpl.
  - exists []. by split.
  - destruct (H a) as (b & Hb & HP); [by left|].
    destruct IH as (bs & Hbs & HF); [intros; apply H; by right|].
    exists (b :: bs). rewrite Hb. simpl. rewrite Hbs. simpl. by split; [|constructor].
Qed.

Lemma for_each_inv {A B : Type} (f : A -> result B) (P : A -> B -> Prop) :
  (forall a b, f a = Ok b -> P a b) ->
  forall l bs, for_each f l = Ok bs -> Forall2 P l bs.
Proof.
  intros H. induction l as [|a l IH]; intros bs; simpl.
  - intros [= <-]. constructor.
  - destruct (f a) as [b|] eqn:Hb; simpl; [|discriminate].
    destruct (for_each f l) as [bs'|] eqn:Hbs; simpl; [|discriminate].
    intros [= <-]. constructor; auto.
Qed.

Lemma enumerate_from_parallel {A R : Type} (index : R -> nat) (text_of : R -> string)
    (proj : A -> string) (chunks : list A) : forall start records,
  Forall2 (fun ic r => index r = ic.1 /\ text_of r = proj ic.2)
    (Patterns.enumerate_from start chunks) records ->
  length records = length chunks
  /\ map index records = seq start (length chunks)
  /\ map text_of records = map proj chunks.
Proof.
  induction chunks as [|c chunks IH]; intros start records H; simpl in H.
  - by inversion H.
  - inversion H as [|ic r l l' [Hi Ht] HF]; subst. simpl in *.
    destruct (IH _ _ HF) as (Hl & Hx & Hm).
    by rewrite Hl, Hi, Ht, Hx, Hm.
Qed.

Lemma enumerate_from_snd {A B : Type} (P : A -> B -> Prop) (l : list A) :
  forall start bs,
    Forall2 (fun ic b => P ic.2 b) (Patterns.enumerate_from start l) bs ->
    Forall2 P l bs.
Proof.
  induction l as [|a l IH]; intros start bs H; simpl in H; inversion H; subst;
    constructor; eauto.
Qed.

Lemma enumerate_from_in {A : Type} (l : list A) : forall start i x,
  In (i, x) (Patterns.enumerate_from start l) -> In x l.
Proof.
  induction l as [|a l IH]; intros start i x; simpl; [done|].
  intros [[= _ <-]|H]; [by left | right; eauto].
Qed.

Module ChunkingLangFacts.
Import PyStr PyRe Patterns ChunkingLang Spec PyReFacts.

Lemma not_error_status s :
  ~ In s error_statuses -> ~ is_error_status (Some s).
Proof. intros Hn (s' & [= <-] & Hin). done. Qed.

Lemma error_status s : In s error_statuses -> is_error_status (Some s).
Proof. intros Hs. by exists s. Qed.

(** The status of the first marker is the one the chain of searches
    comes to. *)
Lemma first_match_status_chain chunk :
  first_match_status chunk =
    if found failed_bang chunk then Some "FAILED"
    else if found unreachable_bang chunk then Some "UNREACHABLE"
    else if found failed_retrying chunk then Some "RETRYING"
    else if found changed_colon chunk then Some "CHANGED"
    else if found ok_colon chunk then Some "OK"
    else if found skipping_colon chunk then Some "SKIPPING"
    else None.
Proof.
  unfold first_match_status, status_priority.
  unfold failed_bang, unreachable_bang, failed_retrying, changed_colon,
    ok_colon, skipping_colon.
  rewrite !found_literal. cbn [List.find fst snd].
  by repeat case_match.
Qed.

(** The fields of an error status, and those of a status that is none. *)
Lemma error_fields_ok chunk s e n :
  In s error_statuses ->
  first_match_status chunk = Some s ->
  (n <> 0%Z -> s = "RETRYING") ->
  status_fields_ok chunk (Some s) true (Some e) n.
Proof.
  intros Hs Hf Hn. repeat split; try done.
  - intros _. by apply error_status.
  - intros H. by rewrite (Hn H).
Qed.

Lemma plain_fields_ok chunk (st : option string) :
  ~ is_error_status st ->
  first_match_status chunk = st ->
  status_fields_ok chunk st false None 0.
Proof. intros Hs Hf. by repeat split. Qed.

(** Whatever the [if]/[elif] chain returns has the stated shape. *)
Lemma status_of_shape max_str_digits chunk st :
  status_of max_str_digits chunk = Ok st ->
  status_fields_ok chunk (st_status st) (st_has_error st) (st_error_type st)
    (st_retry_count st).
Proof.
  pose proof (first_match_status_chain chunk) as Hf.
  unfold status_of. intros H.
  destruct (found failed_bang chunk);
    [injection H as <-; apply error_fields_ok; simpl; auto; done |].
  destruct (found unreachable_bang chunk);
    [injection H as <-; apply error_fields_ok; simpl; auto; done |].
  destruct (found failed_retrying chunk).
  { destruct (match search retries_left chunk with Some _ => _ | None => _ end)
      as [count|]; [|done].
    injection H as <-. apply error_fields_ok; simpl; auto. }
  destruct (found changed_colon chunk);
    [injection H as <-; apply plain_fields_ok;
     [apply not_error_status; simpl; intuition discriminate | done] |].
  destruct (found ok_colon chunk);
    [injection H as <-; apply plain_fields_ok;
     [apply not_error_status; simpl; intuition discriminate | done] |].
  destruct (found skipping_colon chunk);
    [injection H as <-; apply plain_fields_ok;
     [apply not_error_status; simpl; intuition discriminate | done] |].
  injection H as <-. apply plain_fields_ok; [|done]. by intros (s & [=] & _).
Qed.

(** The chain returns, unless a count of retries is too long a numeral. *)
Lemma status_of_returns max_str_digits chunk :
  within_limit max_str_digits chunk ->
  exists st, status_of max_str_digits chunk = Ok st.
Proof.
  intros Hmax. unfold status_of.
  repeat (case_match; [by eexists|]).
  case_match; [|by repeat (case_match; [by eexists|]); eexists].
  destruct (search retries_left chunk) as [m|] eqn:Hm; [|by eexists].
  destruct (retries_left_count _ _ _ Hm Hmax) as [n ->]. by eexists.
Qed.

Lemma extract_one_fields max_str_digits i chunk m :
  extract_one max_str_digits i chunk = Ok m ->
  chunk_index m = i /\ chunk_text m = chunk /\ status_record_ok chunk m.
Proof.
  unfold extract_one.
  destruct (status_of max_str_digits chunk) as [st|] eqn:Hst; [|done].
  intros [= <-]. repeat split; try done; by apply (status_of_shape _ _ _ Hst).
Qed.

Lemma extract_one_returns max_str_digits i chunk :
  within_limit max_str_digits chunk ->
  exists m, extract_one max_str_digits i chunk = Ok m.
Proof.
  intros [st Hst]%status_of_returns. unfold extract_one. rewrite Hst.
  by eexists.
Qed.

Lemma extract_returns max_str_digits chunks :
  Forall (within_limit max_str_digits) chunks ->
  exists records,
    extract_ansible_metadata_from_chunks max_str_digits chunks = Ok records.
Proof.
  intros H. unfold extract_ansible_metadata_from_chunks.
  destruct (for_each_ok (fun ic => extract_one max_str_digits ic.1 ic.2)
              (fun _ _ => True) (enumerate_from 0 chunks))
    as (records & Hr & _); [|eauto].
  intros [i c] Hin. destruct (extract_one_returns max_str_digits i c) as [m Hm].
  - rewrite Forall_forall in H. apply H, list_elem_of_In.
    by eapply enumerate_from_in.
  - eauto.
Qed.

End ChunkingLangFacts.

Module ChunkingLangTheorems.
Import PyStr PyRe Patterns ChunkingLang Spec ChunkingLangFacts.

(** C10: in every record that the extractor of [chunking_lang.py] emits,
    [has_error] holds exactly when [error_type] is set, which holds
    exactly when the status is FAILED, UNREACHABLE or RETRYING; the status
    is the one of the first marker that occurs in the chunk, in the order
    FAILED!, UNREACHABLE!, FAILED - RETRYING, changed:, ok:, skipping:,
    letter case apart; and [retry_count] is not zero only when the status
    is RETRYING. The records are emitted for all chunks within the limit
    of the interpreter on the digits of a numeral. *)
Theorem status_fields_of_every_record max_str_digits (chunks : list string) :
  (forall records,
     extract_ansible_metadata_from_chunks max_str_digits chunks = Ok records ->
     Forall2 status_record_ok chunks records)
  /\ (Forall (within_limit max_str_digits) chunks ->
      exists records,
        extract_ansible_metadata_from_chunks max_str_digits chunks = Ok records).
Proof.
  split; [|apply extract_returns].
  unfold extract_ansible_metadata_from_chunks. intros records H.
  apply (for_each_inv _ (fun ic m => status_record_ok ic.2 m)) in H.
  - by eapply enumerate_from_snd.
  - intros [i c] m Hm. by apply extract_one_fields in Hm as (_ & _ & Hs).
Qed.

(** The theorem at work on a chunk of a failed task. *)
Lemma status_fields_of_sample_record :
  (exists m, Forall2 status_record_ok [sample_failed_chunk] [m]
             /\ ChunkingLang.status m = Some "FAILED")
  /\ exists records,
       extract_ansible_metadata_from_chunks 4300 [sample_failed_chunk] = Ok records.
Proof.
  destruct (status_fields_of_every_record 4300 [sample_failed_chunk]) as [H1 H2].
  split.
  - eexists. split; [apply H1; vm_compute; reflexivity | reflexivity].
  - apply H2. constructor; [right; vm_compute; lia | constructor].
Defined.

(** What the extractor of [chunking_lang.py] returns is a list parallel to
    the chunks, and it returns for all chunks within the limit of the
    interpreter. *)
Lemma extract_ansible_metadata_from_chunks_parallel max_str_digits chunks :
  (forall records,
     extract_ansible_metadata_from_chunks max_str_digits chunks = Ok records ->
     parallel chunk_index chunk_text chunks records)
  /\ (Forall (within_limit max_str_digits) chunks ->
      exists records,
        extract_ansible_metadata_from_chunks max_str_digits chunks = Ok records).
Proof.
  split; [|apply extract_returns].
  unfold extract_ansible_metadata_from_chunks. intros records H.
  apply (for_each_inv _ (fun ic m => chunk_index m = ic.1 /\ chunk_text m = id ic.2))
    in H.
  - apply enumerate_from_parallel in H. by rewrite map_id in H.
  - intros [i c] m Hm. by apply extract_one_fields in Hm as (? & ? & _).
Qed.

End ChunkingLangTheorems.

Module ChonkieChunkingFacts.
Import PyStr PyRe Patterns PyReSpec PyReFacts ChonkieChunking Spec.

Lemma host_stat_groups :
  groups_sat MULTILINE (fun i w => 2 <= i -> numeral w) (pat_re host_stat_pattern).
Proof.
  simpl. repeat match goal with |- _ /\ _ => split end;
    auto using groups_sat_lit;
    try (intros ? ? ? ?; by eapply plus_digit_numeral).
  intros ? ? ? ?. lia.
Qed.

(** A line of the PLAY RECAP that the pattern accepts makes [int] raise
    only by a numeral that is too long. *)
Lemma recap_step_ok max_str_digits chunk_text acc t :
  within_limit max_str_digits chunk_text ->
  Forall2 (fun i x => exists w, x = str w /\ (2 <= i -> numeral w)
                                /\ length w <= String.length chunk_text)
    (seq 1 8) t ->
  exists acc', recap_step max_str_digits acc t = Ok acc'.
Proof.
  intros Hmax H. simpl in H.
  repeat match goal with
         | H : Forall2 _ (_ :: _) _ |- _ => inversion H; clear H; subst
         | H : Forall2 _ [] _ |- _ => inversion H; clear H; subst
         | H : exists w, _ = str w /\ _ |- _ => destruct H as (? & -> & ? & ?)
         end.
  unfold recap_step.
  repeat match goal with
         | H : _ <= _ -> numeral ?w |- _ =>
             match goal with
             | |- context [int _ (str w)] =>
                 rewrite (int_numeral_within max_str_digits chunk_text w)
                   by (try apply H; auto; lia)
             end
         end.
  simpl. destruct (_ || _); eauto.
Qed.

Lemma recap_loop_ok max_str_digits chunk_text ts : forall acc,
  within_limit max_str_digits chunk_text ->
  Forall (Forall2 (fun i x => exists w, x = str w /\ (2 <= i -> numeral w)
                                        /\ length w <= String.length chunk_text)
            (seq 1 8)) ts ->
  exists acc', recap_loop max_str_digits acc ts = Ok acc'.
Proof.
  induction ts as [|t ts IH]; intros acc Hmax H; simpl; [eauto|].
  inversion H as [|? ? Ht Hts]; subst.
  destruct (recap_step_ok max_str_digits chunk_text acc t Hmax Ht) as [acc' ->].
  simpl. by apply IH.
Qed.

Lemma recap_ok max_str_digits chunk_text acc :
  within_limit max_str_digits chunk_text ->
  exists acc',
    recap_loop max_str_digits acc (findalln 8 host_stat_pattern chunk_text)
    = Ok acc'.
Proof.
  intros Hmax. apply (recap_loop_ok _ chunk_text); [done|].
  apply Forall_forall. intros t Ht%list_elem_of_In.
  eapply findalln_groups; [exact Ht | apply host_stat_groups | reflexivity].
Qed.

Lemma retry_counts_ok max_str_digits chunk_text :
  within_limit max_str_digits chunk_text ->
  exists counts,
    for_each (int max_str_digits) (findall1 retries_left chunk_text) = Ok counts.
Proof.
  intros Hmax.
  destruct (for_each_ok (int max_str_digits) (fun _ _ => True)
              (findall1 retries_left chunk_text))
    as (counts & H & _); [|eauto].
  intros x Hx.
  destruct (findall1_group (fun _ => numeral) _ _ _ Hx retries_left_groups eq_refl)
    as (w & -> & Hw & Hl).
  exists (digits_val w). split; [by eapply int_numeral_within | done].
Qed.

(** Within the limit of the interpreter, the extractor raises on a chunk
    exactly when a duration of its task timings is no numeral. *)
Lemma extract_one_raises max_str_digits i chunk e :
  within_limit max_str_digits (text chunk) ->
  extract_one max_str_digits i chunk = Raise e <->
  exists timings, find_task_timings (text chunk) = Some timings
                  /\ for_each timing_entry timings = Raise e.
Proof.
  intros Hmax. unfold extract_one.
  set (init := {| rc_host_stats := []; rc_has_error := false; rc_error_types := [] |}).
  destruct (recap_ok max_str_digits (text chunk) init Hmax) as [acc Hacc].
  destruct (retry_counts_ok max_str_digits (text chunk) Hmax) as [counts Hc].
  assert (Hrecap : exists r,
            (if found play_recap (text chunk)
             then recap_loop max_str_digits init
                    (findalln 8 host_stat_pattern (text chunk))
             else Ok init) = Ok r)
    by (destruct (found _ _); eauto).
  destruct Hrecap as [r ->]. cbn [mbind result_bind].
  destruct (find_task_timings (text chunk)) as [timings|].
  - destruct (for_each timing_entry timings) as [ts|e'] eqn:Ht; cbn [mbind result_bind].
    + rewrite Hc. cbn [mbind result_bind].
      split; [done | by intros (? & [= <-] & ?); congruence].
    + split; [intros [= ->]; eauto | intros (? & [= <-] & ?); congruence].
  - cbn [mbind result_bind]. rewrite Hc. cbn [mbind result_bind].
    split; [done | by intros (? & ? & _)].
Qed.

Lemma timing_groups :
  groups_sat MULTILINE
    (fun i w => i = 2 -> w <> [] /\ forallb digit_or_dot w = true)
    (pat_re timing_pattern).
Proof.
  simpl. repeat match goal with |- _ /\ _ => split end; try done.
  intros ? ? ? _. by eapply plus_class_word.
Qed.

(** [float] is only given non-empty strings of digits and points. *)
Lemma timing_durations chunk_text t :
  In t (findalln 2 timing_pattern chunk_text) ->
  exists task_name w,
    t = [task_name; str w] /\ w <> [] /\ forallb digit_or_dot w = true.
Proof.
  intros Ht.
  pose proof (findalln_groups _ _ _ _ _ Ht timing_groups eq_refl) as H.
  simpl in H.
  repeat match goal with
         | H : Forall2 _ (_ :: _) _ |- _ => inversion H; clear H; subst
         | H : Forall2 _ [] _ |- _ => inversion H; clear H; subst
         | H : exists w, _ = str w /\ _ |- _ => destruct H as (? & -> & ? & ?)
         end.
  eexists _, _. split; [done|]. auto.
Qed.

(** A tuple of the timing pattern makes the extractor raise only through
    [float]. *)
Lemma timing_entry_raises chunk_text t e :
  In t (findalln 2 timing_pattern chunk_text) ->
  timing_entry t = Raise e ->
  exists task_name duration, t = [task_name; duration] /\ float duration = Raise e.
Proof.
  unfold findalln. intros (m & <- & _)%in_map_iff. simpl.
  destruct (float _) eqn:E; simpl; [done|]. intros [= <-]. eauto.
Qed.

End ChonkieChunkingFacts.

Module ChonkieChunkingTheorems.
Import PyStr PyRe Patterns ChonkieChunking Spec.

Lemma extract_one_index_and_text max_str_digits i chunk m :
  extract_one max_str_digits i chunk = Ok m ->
  chunk_index m = i /\ chunk_text m = text chunk.
Proof.
  unfold extract_one, mbind, result_bind.
  repeat match goal with
         | |- context [match ?x with Ok _ => _ | Raise _ => _ end] =>
             destruct x; [|discriminate]
         end.
  by intros [= <-].
Qed.

(** When the extractor of [chonkie_chunking.py] returns, its list is
    parallel to the chunks. *)
Lemma extract_ansible_metadata_from_chonkie_chunks_parallel
    max_str_digits chunks records :
  extract_ansible_metadata_from_chonkie_chunks max_str_digits chunks = Ok records ->
  parallel chunk_index chunk_text (map text chunks) records.
Proof.
  unfold extract_ansible_metadata_from_chonkie_chunks. intros H.
  apply (for_each_inv _ (fun ic m => chunk_index m = ic.1 /\ chunk_text m = text ic.2))
    in H; [|intros [i c] m; apply extract_one_index_and_text].
  apply enumerate_from_parallel in H. unfold parallel. by rewrite length_map.
Qed.

(** Within the limit of the interpreter, the extractor of
    [chonkie_chunking.py] returns a parallel list when the durations of
    all task timings are numerals, and so on all chunks without task
    timings. *)
Lemma extract_ansible_metadata_from_chonkie_chunks_total max_str_digits chunks :
  Forall (fun c => within_limit max_str_digits (text c)) chunks ->
  (forall c timings,
     In c chunks -> find_task_timings (text c) = Some timings ->
     exists entries, for_each timing_entry timings = Ok entries) ->
  exists records,
    extract_ansible_metadata_from_chonkie_chunks max_str_digits chunks = Ok records
    /\ parallel chunk_index chunk_text (map text chunks) records.
Proof.
  intros Hmax H.
  destruct (extract_ansible_metadata_from_chonkie_chunks max_str_digits chunks)
    as [records|e] eqn:E.
  - exists records. split; [done|].
    by eapply extract_ansible_metadata_from_chonkie_chunks_parallel.
  - exfalso. revert E. unfold extract_ansible_metadata_from_chonkie_chunks.
    generalize 0. induction chunks as [|c chunks IH]; intros n; simpl; [done|].
    inversion Hmax as [|? ? Hc Hcs]; subst.
    destruct (extract_one max_str_digits n c) as [m|e'] eqn:Em; simpl.
    + destruct (for_each _ (enumerate_from (S n) chunks)) eqn:Er; simpl; [done|].
      intros [= ->]. eapply IH; [done| |exact Er].
      intros c' ts Hc'. apply H. by right.
    + apply ChonkieChunkingFacts.extract_one_raises in Em as (ts & Hts & Hr); [|done].
      destruct (H c ts) as [entries He]; [by left | done | congruence].
Qed.

(** C8: on a chunk list of one chunk, whose text is "TASKS RECAP" and the
    line "setup - 1.2.3s", the extractor of [chonkie_chunking.py] returns
    no list: [float] raises [ValueError] on the duration "1.2.3". *)
Theorem extract_raises_on_malformed_duration max_str_digits :
  findalln 2 timing_pattern (text malformed_timing_chunk)
    = [["TASKS RECAP" +:+ nl +:+ "setup"; "1.2.3"]]
  /\ float "1.2.3" = Raise ValueError
  /\ extract_ansible_metadata_from_chonkie_chunks max_str_digits
       [malformed_timing_chunk]
     = Raise ValueError.
Proof. by vm_compute. Qed.

End ChonkieChunkingTheorems.

Module LevelTables.
Import PyStr Spec.

(** An empty separator is found in every text, and so cuts any of them. *)
Lemma fallback_separator_occurs sep log :
  separator_is_fallback sep = true -> contains sep log = true.
Proof.
  unfold separator_is_fallback. intros ->%String.eqb_eq.
  unfold contains. simpl. by destruct (chars log).
Qed.

(** A splitter type that is not known is not rejected: it gets the rules
    of the context splitter. *)
Lemma unknown_splitter_type_gets_context_rules splitter_type :
  splitter_type <> "alert" -> splitter_type <> "error" ->
  ChonkieChunking.AnsibleChonkieLogSplitter._create_ansible_rules splitter_type
  = ChonkieChunking.AnsibleChonkieLogSplitter._create_ansible_rules "context".
Proof.
  intros Ha He.
  unfold ChonkieChunking.AnsibleChonkieLogSplitter._create_ansible_rules.
  apply String.eqb_neq in Ha, He. by rewrite Ha, He.
Qed.

(** C3, as stated, fails: the separators of the [error_splitter] of
    [main.py] end with the newline, which is no fallback; it does not
    occur in the text "ab", which it cannot cut. *)
Lemma error_splitter_has_no_fallback :
  List.last (separators Main.create_ansible_splitters.2) "" = nl
  /\ separators_end_with_fallback Main.create_ansible_splitters.2 = false
  /\ contains nl "ab" = false.
Proof. by vm_compute. Qed.

(** C3, amended: the level tables that [_create_ansible_rules] builds,
    and the separator lists of the two [AnsibleLogSplitter] classes, end
    with a fallback level, whatever the splitter type and the keyword
    arguments. *)
Theorem level_tables_end_with_fallback :
  (forall splitter_type,
     rules_end_with_fallback
       (ChonkieChunking.AnsibleChonkieLogSplitter._create_ansible_rules splitter_type)
     = true)
  /\ (forall splitter_type kw,
        separators_end_with_fallback
          (ChunkingLang.AnsibleLogSplitter.__init__ splitter_type kw) = true)
  /\ (forall kw,
        separators_end_with_fallback (Main.AnsibleLogSplitter.__init__ kw) = true).
Proof.
  split; [|split].
  - intros st.
    unfold ChonkieChunking.AnsibleChonkieLogSplitter._create_ansible_rules.
    by repeat case_match.
  - intros st kw.
    unfold separators_end_with_fallback, ChunkingLang.AnsibleLogSplitter.__init__,
      ChunkingLang.AnsibleLogSplitter.separators_for. simpl.
    by repeat case_match.
  - done.
Qed.

End LevelTables.

(** ** The sources at work on sample texts *)

Module Samples.
Import PyStr Spec.

(** All three error markers occur, in lower case, after an [ok:]; FAILED!
    has priority. *)
Example failed_chunk_record :
  ChunkingLang.extract_ansible_metadata_from_chunks 4300 [sample_failed_chunk]
  = Ok [ {| ChunkingLang.chunk_index := 0;
            ChunkingLang.chunk_text := sample_failed_chunk;
            ChunkingLang.playbook_name := None;
            ChunkingLang.task_name := Some "Check venv";
            ChunkingLang.hosts := ["bastion.25cj7.internal"; "localhost"];
            ChunkingLang.status := Some "FAILED";
            ChunkingLang.timestamp := Some "Friday 18 July 2025  21:02:54";
            ChunkingLang.has_error := true;
            ChunkingLang.error_type := Some "TASK_FAILED";
            ChunkingLang.duration := Some "0:00:00.024";
            ChunkingLang.retry_count := 0 |} ].
Proof. by vm_compute. Qed.

(** The retries left are read from the last count of the line. *)
Example retrying_chunk_status :
  ChunkingLang.status_of 4300
    "FAILED - RETRYING: [h1]: wait (5 retries left). (3 retries left)"
  = Ok {| ChunkingLang.st_status := Some "RETRYING";
          ChunkingLang.st_has_error := true;
          ChunkingLang.st_error_type := Some "RETRY_FAILURE";
          ChunkingLang.st_retry_count := 3 |}.
Proof. by vm_compute. Qed.

(** With the limit at 640 digits, the lowest the interpreter accepts, a
    count of retries of 640 digits is read; one digit more stops the
    extractor. *)
Example long_count_is_refused :
  match ChunkingLang.extract_ansible_metadata_from_chunks 640
          [long_count_chunk 640] with
  | Ok [m] => ChunkingLang.retry_count m = (10 ^ 640 - 1)%Z
  | _ => False
  end
  /\ ChunkingLang.extract_ansible_metadata_from_chunks 640 [long_count_chunk 641]
     = Raise ValueError.
Proof. by vm_compute. Qed.

(** A summary chunk: the host statistics in the order of the lines, the
    task timings with the longest first. The first task reaches back to
    the start of the line before it, for [[^-]] reads newlines too. *)
Example recap_chunk_record :
  match ChonkieChunking.extract_ansible_metadata_from_chonkie_chunks 4300
          [sample_recap_chunk] with
  | Ok [m] =>
      ( ChonkieChunking.chunk_index m, ChonkieChunking.chunk_type m,
        ChonkieChunking.chonkie_start m, ChonkieChunking.hosts m,
        ChonkieChunking.statuses m, ChonkieChunking.has_error m,
        ChonkieChunking.error_types m,
        map fst (ChonkieChunking.host_stats m),
        map (fun t => (ChonkieChunking.task t, ChonkieChunking.duration_seconds t))
          (ChonkieChunking.task_timings m) )
      = ( 0, "RECAP", 100%Z, ["web-1"; "db.x"], ["SUMMARY"], true,
          ["TASK_FAILED_SUMMARY"; "HOST_UNREACHABLE_SUMMARY"],
          ["web-1"; "db.x"],
          [ ("install", {| float_digits := 1225; float_scale := 2 |});
            ("db.x  : ok=9  changed=0 unreachable=1 failed=0 skipped=0 rescued=0 ignored=0"
             +:+ nl +:+ "TASKS RECAP ****" +:+ nl +:+ "setup",
             {| float_digits := 15; float_scale := 1 |}) ] )
  | _ => False
  end.
Proof. by vm_compute. Qed.

(** The defaults of a splitter type fill in what the caller leaves out,
    and hand on what the caller gives, whatever it is. *)
Example alert_defaults :
  map_to_list (splitter_kwargs (ChunkingLang.AnsibleLogSplitter.__init__ "alert" ∅))
  = [("chunk_overlap", 50%Z); ("chunk_size", 500%Z)].
Proof. by vm_compute. Qed.

Example negative_size_is_handed_on :
  ChonkieChunking.chunker_kwargs
    (ChonkieChunking.AnsibleChonkieLogSplitter.__init__ "context"
       {[ "chunk_size" := (-5)%Z ]}) !! "chunk_size"
  = Some (-5)%Z.
Proof. by vm_compute. Qed.

End Samples.
